(** * Ring_Search_System: the embedding-fusion pipeline and its endpoints

    A shallow embedding of [Backend/main.py] and [Backend/index_catalog.py].

    Conventions of the model:
    - A float is a rational ([Q]) or NaN ([pyfloat]). The float32 steps the
      search endpoint takes under NumPy's promotion rules (the comparison of a
      confidence with 0.40, the subtraction [1 - cosine(...)]) round with
      [float32_round]; infinities, subnormals and overflow are outside the
      model.
    - 8-bit pixels are integers ([Z]); an image is a list of rows.
    - The pretrained models and the library routines whose code is not part
      of the repository (YOLO, CLIP, [cv2.resize], [cv2.Canny], SciPy's
      [cosine], ...) are the fields of the class [Runtime]: every theorem
      holds for every implementation of them.
    - A computation returns the list of external calls it made together with
      its result or the exception it raised; [print] calls are left out. *)

From Stdlib Require Import String Ascii.
From Stdlib Require Import ZArith QArith Qround Qabs Bool Lia Lqa.
From Stdlib Require Import List Permutation Sorted.
Import ListNotations.

(** ** Python: exceptions, call log, builtins *)
Module Py.

Inductive exn : Type :=
| AttributeError | IndexError | TypeError | ValueError | RuntimeError | cv2_error.

Inductive outcome (A : Type) : Type :=
| Ok (a : A)
| Raise (e : exn).
Arguments Ok {A} a.
Arguments Raise {A} e.

(** The external calls a request can make, in the order they are made. *)
Inductive event : Type :=
| FileRead                        (* await file.read() *)
| Imdecode                        (* cv2.imdecode *)
| Imread (path : string)          (* cv2.imread *)
| Yolo (conf : option Q)          (* yolo_model(img, conf=...) *)
| ClipFeatures                    (* clip_processor + clip_model.get_image_features *)
| Cosine (name : string)          (* scipy cosine against one catalog item *)
| Imencode                        (* cv2.imencode *)
| NpSave (path : string).         (* np.save *)

Definition M (A : Type) : Type := (list event * outcome A)%type.

Definition ret {A} (a : A) : M A := ([], Ok a).

Definition raise {A} (e : exn) : M A := ([], Raise e).

Definition bind {A B} (c : M A) (k : A -> M B) : M B :=
  match c with
  | (log, Ok a) => let (log', r) := k a in (log ++ log', r)
  | (log, Raise e) => (log, Raise e)
  end.

(** An external call: one event, then the call's own outcome. *)
Definition call {A} (ev : event) (r : outcome A) : M A := ([ev], r).

Definition lift {A} (r : outcome A) : M A := ([], r).

Definition log_of {A} (c : M A) : list event := fst c.
Definition result_of {A} (c : M A) : outcome A := snd c.

(** [seq[0]] *)
Definition item0 {A} (l : list A) : outcome A :=
  match l with
  | [] => Raise IndexError
  | x :: _ => Ok x
  end.

(** [int(x)] on a float: truncation towards zero. *)
Definition int (x : Q) : Z := Z.quot (Qnum x) (Zpos (Qden x)).

(** Nearest integer, ties to the even one. *)
Definition round_half_even (x : Q) : Z :=
  let n := Qnum x in
  let d := Zpos (Qden x) in
  let q := (n / d)%Z in
  match (2 * (n mod d) ?= d)%Z with
  | Lt => q
  | Gt => (q + 1)%Z
  | Eq => if Z.even q then q else (q + 1)%Z
  end.

(** [round(x, 1)]: the nearest multiple of one tenth. *)
Definition round1 (x : Q) : Q := Qmake (round_half_even (x * 10)%Q) 10.

(** [x < y] on floats. *)
Definition float_lt (x y : Q) : bool := negb (Qle_bool y x).

(** A Python or NumPy float: a number or NaN. *)
Inductive pyfloat : Type :=
| Num (q : Q)
| NaN.
Coercion Num : Q >-> pyfloat.

Definition is_nan (x : pyfloat) : bool :=
  match x with
  | NaN => true
  | Num _ => false
  end.

(** [x < y] on floats that may be NaN: false as soon as one side is NaN. *)
Definition pyfloat_lt (x y : pyfloat) : bool :=
  match x, y with
  | Num a, Num b => float_lt a b
  | _, _ => false
  end.

(** [round(x, 1)] on a float that may be NaN. *)
Definition round1_float (x : pyfloat) : pyfloat :=
  match x with
  | Num q => Num (round1 q)
  | NaN => NaN
  end.

(** [float(x) * c] for a float32 value [x] and a small whole number [c]: the
    product fits the 53 bits of a double, so it is exact. *)
Definition float_mul (x : pyfloat) (c : Q) : pyfloat :=
  match x with
  | Num q => Num (q * c)%Q
  | NaN => NaN
  end.

(** [str.lower] on ASCII text. *)
Definition lower_char (c : ascii) : ascii :=
  let n := nat_of_ascii c in
  if ((65 <=? n) && (n <=? 90))%nat then ascii_of_nat (n + 32) else c.

Fixpoint lower (s : string) : string :=
  match s with
  | EmptyString => EmptyString
  | String c t => String (lower_char c) (lower t)
  end.

(** [s.endswith(suffix)]: some tail of [s] is [suffix]. *)
Fixpoint endswith (s suffix : string) : bool :=
  if String.eqb s suffix then true
  else match s with
       | EmptyString => false
       | String _ t => endswith t suffix
       end.

(** [s.endswith((a, b, ...))] *)
Definition endswith_any (s : string) (suffixes : list string) : bool :=
  existsb (endswith s) suffixes.

End Py.

Export Py.

Declare Scope py_scope.
Delimit Scope py_scope with py.
Notation "x <- c ;; k" := (bind c (fun x => k))
  (at level 61, c at next level, right associativity) : py_scope.
Open Scope py_scope.

(** ** NumPy arrays and Torch tensors *)
Module Numpy.

Inductive dtype : Type := float16 | float32 | float64.

Definition dtype_eqb (a b : dtype) : bool :=
  match a, b with
  | float16, float16 | float32, float32 | float64, float64 => true
  | _, _ => false
  end.

(** A one-dimensional array. *)
Record ndarray : Type := mk_ndarray { nd_dtype : dtype; nd_data : list Q }.

(** [a.astype(np.float32)]: values already stored as float32 are copied as
    they are, others are rounded to the nearest float32 by [to_f32]. *)
Definition astype_float32 (to_f32 : Q -> Q) (a : ndarray) : ndarray :=
  if dtype_eqb (nd_dtype a) float32 then mk_ndarray float32 (nd_data a)
  else mk_ndarray float32 (map to_f32 (nd_data a)).

(** [x.astype(np.uint8)] on a float: truncation, kept in 8 bits. *)
Definition astype_uint8 (x : Q) : Z := (Py.int x mod 256)%Z.

(** The exponent [e] with [2^e <= a < 2^(e+1)], for [a > 0]. *)
Definition floor_log2 (a : Q) : Z :=
  let e := (Z.log2 (Qnum a) - Z.log2 (Zpos (Qden a)))%Z in
  if Qle_bool (2 ^ e) a then e else (e - 1)%Z.

(** The nearest float32 (24-bit significand, ties to even) of a number in
    the normal range. *)
Definition float32_round (x : Q) : Q :=
  let x := Qred x in
  if Qeq_bool x 0 then 0%Q
  else
    let a := Qabs x in
    let scale := (2 ^ (23 - floor_log2 a))%Q in
    let m := inject_Z (round_half_even (a * scale)%Q) in
    Qred (if Qle_bool 0 x then m / scale else - (m / scale))%Q.

(** [c - d] for a Python number [c] and a float32 scalar [d]: NumPy computes
    it in float32. *)
Definition float32_rsub (c : Q) (d : pyfloat) : pyfloat :=
  match d with
  | Num q => Num (float32_round (c - q))
  | NaN => NaN
  end.

End Numpy.

Module Torch.
Import Numpy.

(** A two-dimensional tensor (batch x features). *)
Record tensor : Type := mk_tensor { t_dtype : dtype; t_rows : list (list Q) }.

(** What a Python name can hold where the code expects a tensor. *)
Inductive pyvalue : Type :=
| PTensor (t : tensor)
| PNone
| PObject.

Definition promote (a b : dtype) : dtype :=
  match a, b with
  | float64, _ | _, float64 => float64
  | float32, _ | _, float32 => float32
  | float16, float16 => float16
  end.

(** Row-wise concatenation of two lists of rows of equal length. *)
Fixpoint cat_rows (a b : list (list Q)) : list (list Q) :=
  match a, b with
  | ra :: ta, rb :: tb => (ra ++ rb) :: cat_rows ta tb
  | _, _ => []
  end.

(** [torch.cat((a, b), dim=1)] *)
Definition cat_dim1 (a b : pyvalue) : outcome tensor :=
  match a, b with
  | PTensor ta, PTensor tb =>
      if (length (t_rows ta) =? length (t_rows tb))%nat
      then Ok (mk_tensor (promote (t_dtype ta) (t_dtype tb))
                         (cat_rows (t_rows ta) (t_rows tb)))
      else Raise RuntimeError
  | _, _ => Raise TypeError
  end.

(** [t.cpu().numpy().flatten()] *)
Definition numpy_flatten (t : tensor) : ndarray :=
  mk_ndarray (t_dtype t) (concat (t_rows t)).

End Torch.

(** ** OpenCV: images and the pixel operations the code relies on *)
Module Cv2.
Import Numpy.

(** A colour pixel: three 8-bit channels, in the order the array stores them. *)
Definition pixel : Type := (Z * Z * Z)%type.
Definition image : Type := list (list pixel).
(** A single-channel 8-bit array. *)
Definition plane : Type := list (list Z).
(** A single-channel float array. *)
Definition fplane : Type := list (list Q).

Definition black : pixel := (0, 0, 0)%Z.

(** [a.shape[0]] and [a.shape[1]] *)
Definition height {A} (a : list (list A)) : nat := length a.
Definition width {A} (a : list (list A)) : nat :=
  match a with
  | [] => O
  | r :: _ => length r
  end.

(** [a[i][j]] *)
Definition at2 {A} (a : list (list A)) (i j : nat) : option A :=
  match nth_error a i with
  | Some row => nth_error row j
  | None => None
  end.

Fixpoint same_shape {A B} (a : list (list A)) (b : list (list B)) : bool :=
  match a, b with
  | [], [] => true
  | ra :: ta, rb :: tb => (length ra =? length rb)%nat && same_shape ta tb
  | _, _ => false
  end.

Fixpoint zip3_with {A B C D} (f : A -> B -> C -> D)
         (la : list A) (lb : list B) (lc : list C) : list D :=
  match la, lb, lc with
  | a :: ta, b :: tb, c :: tc => f a b c :: zip3_with f ta tb tc
  | _, _, _ => []
  end.

(** [cv2.cvtColor(img, cv2.COLOR_BGR2RGB)] *)
Definition COLOR_BGR2RGB (img : image) : image :=
  map (map (fun p : pixel => let '(b, g, r) := p in (r, g, b))) img.

(** [cv2.cvtColor(gray, cv2.COLOR_GRAY2RGB)] *)
Definition COLOR_GRAY2RGB (gray : plane) : image :=
  map (map (fun v : Z => (v, v, v))) gray.

(** [cv2.merge([a, b, c])] *)
Definition merge (a b c : plane) : image :=
  zip3_with (zip3_with (fun x y z : Z => (x, y, z))) a b c.

Definition and_pixel (p q : pixel) : pixel :=
  let '(b1, g1, r1) := p in
  let '(b2, g2, r2) := q in
  (Z.land b1 b2, Z.land g1 g2, Z.land r1 r2).

(** One pixel of [bitwise_and] under a mask: the destination is allocated
    zeroed and written only where the mask is non-zero. *)
Definition and_under_mask (p q : pixel) (m : Z) : pixel :=
  if (m =? 0)%Z then black else and_pixel p q.

(** [cv2.bitwise_and(src1, src2, mask=mask)] *)
Definition bitwise_and (src1 src2 : image) (mask : plane) : outcome image :=
  if same_shape src1 src2 && same_shape src1 mask
  then Ok (zip3_with (zip3_with and_under_mask) src1 src2 mask)
  else Raise cv2_error.

(** [(mask * 255).astype(np.uint8)] *)
Definition scale_to_uint8 (mask : fplane) : plane :=
  map (map (fun x : Q => astype_uint8 (x * 255)%Q)) mask.

(** [np.ones((rows, cols), np.uint8)] *)
Definition ones (rows cols : nat) : plane := repeat (repeat 1%Z cols) rows.

Inductive inpaint_flag : Type := INPAINT_NS | INPAINT_TELEA.

(** *** Bilinear interpolation, the default of [cv2.resize]

    Destination sample [d] of an axis with [n] source and [m] destination
    samples reads the source at [(d + 1/2) * n / m - 1/2], clamped to the
    axis, and blends the two neighbouring samples linearly. *)
Definition src_coord (n m d : nat) : Q :=
  ((inject_Z (Z.of_nat d) + (1 # 2))
   * (inject_Z (Z.of_nat n) / inject_Z (Z.of_nat m)) - (1 # 2))%Q.

(** Left neighbour and the weight of the right neighbour. *)
Definition neighbours (n m d : nat) : nat * Q :=
  let f := src_coord n m d in
  let s := Qfloor f in
  if (s <? 0)%Z then (O, 0%Q)
  else if (Z.of_nat n - 1 <=? s)%Z then (pred n, 0%Q)
       else (Z.to_nat s, (f - inject_Z s)%Q).

Definition resample {A} (blend : A -> A -> Q -> A) (dflt : A)
           (src : list A) (m : nat) : list A :=
  map (fun d => let (i, w) := neighbours (length src) m d in
                blend (nth i src dflt) (nth (S i) src dflt) w)
      (seq 0 m).

Definition blend_value (a b w : Q) : Q := Qred (a * (1 - w) + b * w)%Q.

Definition blend_row (a b : list Q) (w : Q) : list Q :=
  map (fun ab : Q * Q => blend_value (fst ab) (snd ab) w)
      (combine a (if Qeq_bool w 0 then a else b)).

(** [cv2.resize(src, (w, h))] with the default [INTER_LINEAR], in exact
    arithmetic. *)
Definition resize_linear (src : fplane) (dsize : nat * nat) : fplane :=
  let (w, h) := dsize in
  resample blend_row [] (map (fun row => resample blend_value 0 row w) src) h.

(** A four-channel pixel (B, G, R, alpha) and image. *)
Definition pixel4 : Type := (Z * Z * Z * Z)%type.
Definition image4 : Type := list (list pixel4).

Fixpoint zip4_with {A B C D E} (f : A -> B -> C -> D -> E)
         (la : list A) (lb : list B) (lc : list C) (ld : list D) : list E :=
  match la, lb, lc, ld with
  | a :: ta, b :: tb, c :: tc, d :: td => f a b c d :: zip4_with f ta tb tc td
  | _, _, _, _ => []
  end.

(** [cv2.merge([a, b, c, d])]: planes of different sizes are refused. *)
Definition merge4 (a b c d : plane) : outcome image4 :=
  if same_shape a b && same_shape a c && same_shape a d
  then Ok (zip4_with (zip4_with (fun x y z w : Z => (x, y, z, w))) a b c d)
  else Raise cv2_error.

End Cv2.

(** ** The pretrained models and library routines *)
Module Env.
Import Numpy Torch Cv2.

(** One detection of [results[0].boxes]. *)
Record Box : Type := mk_box { cls : Q; conf : Q }.

(** [results[0]] of a YOLO segmentation call: [masks] is [None] or holds the
    float masks of [masks.data]. *)
Record Results : Type := mk_results {
  masks : option (list fplane);
  boxes : list Box
}.

(** What [clip_model.get_image_features] hands back, by the tests the code
    applies to it. *)
Inductive clip_output : Type :=
| BaseModelOutputWithPooling (pooler_output : pyvalue)
    (* hasattr(outputs, "pooler_output") *)
| Tensor (t : tensor)
    (* isinstance(outputs, torch.Tensor) *)
| Tuple (items : list pyvalue)
    (* isinstance(outputs, tuple) *)
| OtherObject (last_hidden_state_cls : outcome pyvalue) (getitem0 : outcome pyvalue).
    (* anything else: outputs.last_hidden_state[:, 0] and outputs[0] *)

(** The outputs the CLIP releases produce: the feature tensor itself, a
    tuple, or an output object that carries [pooler_output]. *)
Definition documented_output (o : clip_output) : Prop :=
  match o with
  | OtherObject _ _ => False
  | _ => True
  end.

(** [o] carries the embedding [e] as a 1 x 512 float32 tensor. *)
Definition embeds (o : clip_output) (e : list Q) : Prop :=
  length e = 512%nat
  /\ (o = Tensor (mk_tensor float32 [e])
      \/ o = BaseModelOutputWithPooling (PTensor (mk_tensor float32 [e]))).

(** A record of the catalog: [{"name": ..., "vector": ...}]. *)
Record CatalogItem : Type := mk_item { name : string; vector : ndarray }.

Class Runtime : Type := {
  (** [yolo_model(img, conf=conf, verbose=False)[0]] *)
  yolo_model : option image -> option Q -> outcome Results;
  (** [cv2.resize(mask, (width, height))] *)
  cv2_resize : fplane -> nat * nat -> fplane;
  (** [cv2.cvtColor(img, cv2.COLOR_BGR2GRAY)] *)
  cv2_BGR2GRAY : image -> plane;
  (** [cv2.Canny(gray, low, high)] *)
  cv2_Canny : plane -> Z -> Z -> plane;
  (** [clip_model.get_image_features] applied to what [clip_processor]
      makes of [Image.fromarray(rgb)] *)
  clip_image_features : image -> clip_output;
  (** rounding of a wider float to float32 *)
  to_float32 : Q -> Q;
  (** [scipy.spatial.distance.cosine(u, v)]: a float32 scalar for float32
      vectors, NaN when a vector is zero *)
  cosine : ndarray -> ndarray -> outcome pyfloat;
  (** what [sorted] makes of a list some of whose keys are NaN, the keys
      then not being ordered by [<]: some rearrangement of the list *)
  sorted_unordered : forall A : Type, (A -> pyfloat) -> list A -> list A;
  sorted_unordered_perm :
    forall (A : Type) (key : A -> pyfloat) (l : list A),
      Permutation (sorted_unordered A key l) l;
  (** [cv2.imdecode(np.frombuffer(contents, np.uint8), cv2.IMREAD_COLOR)] on
      a buffer that is not empty: the image, or [None] *)
  cv2_imdecode : list Byte.byte -> option image;
  (** [cv2.imread(path)] *)
  cv2_imread : string -> option image;
  (** [cv2.dilate(src, kernel, iterations=n)] *)
  cv2_dilate : plane -> plane -> nat -> plane;
  (** [cv2.inpaint(src, mask, radius, flags)] *)
  cv2_inpaint : image -> plane -> Q -> inpaint_flag -> image;
  (** [cv2.imencode(ext, img)[1].tobytes()] *)
  cv2_imencode : string -> image -> list Byte.byte;
  (** [os.path.exists(path)] *)
  os_path_exists : string -> bool;
  (** [os.listdir(path)] *)
  os_listdir : string -> list string
}.

(** [os.path.join(a, b)] on POSIX paths. *)
Definition os_path_join (a b : string) : string :=
  match b with
  | String "/"%char _ => b
  | _ => if (String.eqb a EmptyString || endswith a "/")%bool then (a ++ b)%string
         else (a ++ "/" ++ b)%string
  end.

(** [try: body except Exception as e: handler(e)] *)
Definition try_except {A} (body : M A) (handler : exn -> M A) : M A :=
  match body with
  | (log, Ok a) => (log, Ok a)
  | (log, Raise e) => let (log', r) := handler e in (log ++ log', r)
  end.

End Env.

(** ** Backend/main.py *)
Module Main.
Import Numpy Torch Cv2 Env.

Definition BASE_URL : string := "http://192.168.1.106:8004".
Definition STATIC_IMG_PATH : string := "Rings/ring/".

(** A [/search] result: [{"name": ..., "similarity": ..., "image_url": ...}]. *)
Record Match : Type := mk_match {
  match_name : string;
  similarity : pyfloat;
  image_url : string
}.

(** What [search_ring] returns: an error object or the list of matches. *)
Inductive search_response : Type :=
| SearchError (error : string)
| SearchResults (top_10 : list Match).

(** What the image endpoints return. *)
Inductive image_response : Type :=
| JsonError (error : string)
| StreamingResponse (body : list Byte.byte) (media_type : string).

(** The catalog loaded at startup: [np.load] wrapped in [try/except]. *)
Definition CATALOG_DATA (np_load : outcome (list CatalogItem)) : list CatalogItem :=
  match np_load with
  | Ok data => data
  | Raise _ => []
  end.

Section WithRuntime.
Context {R : Runtime}.

(** Lines 51-57: the image handed to CLIP as the stone view. *)
Definition stone_view (cv2_img : image) (results : Results) : M image :=
  match masks results with
  | Some data =>
      mask <- lift (item0 data) ;;
      let mask := cv2_resize mask (width cv2_img, height cv2_img) in
      let mask_uint8 := scale_to_uint8 mask in
      lift (bitwise_and cv2_img cv2_img mask_uint8)
  | None => ret cv2_img
  end.

(** Lines 59-61: the edge map replicated over three channels. *)
Definition structure_view (cv2_img : image) : image :=
  let gray := cv2_BGR2GRAY cv2_img in
  let edges := cv2_Canny gray 100 200 in
  COLOR_GRAY2RGB edges.

(** Lines 67 and 72: the tensor picked out of the CLIP output. *)
Definition features_of (outputs : clip_output) : outcome pyvalue :=
  match outputs with
  | BaseModelOutputWithPooling pooler_output => Ok pooler_output
  | Tuple items => item0 items
  | Tensor t => Ok (PTensor t)
  | OtherObject _ _ => Ok PObject
  end.

(** Lines 63-75: CLIP on the two views, then the fusion. *)
Definition embed_views (stone_rgb edges_3ch : image) : M ndarray :=
  outputs_stone <- call ClipFeatures (Ok (clip_image_features stone_rgb)) ;;
  stone_features <- lift (features_of outputs_stone) ;;
  outputs_edge <- call ClipFeatures (Ok (clip_image_features edges_3ch)) ;;
  edge_features <- lift (features_of outputs_edge) ;;
  combined <- lift (cat_dim1 stone_features edge_features) ;;
  ret (astype_float32 to_float32 (numpy_flatten combined)).

Definition get_combined_embedding (cv2_img : option image) : M ndarray :=
  results <- call (Yolo None) (yolo_model cv2_img None) ;;
  img <- lift (match cv2_img with
               | Some img => Ok img
               | None => Raise AttributeError
               end) ;;
  mask_img <- stone_view img results ;;
  let edges_3ch := structure_view img in
  embed_views (COLOR_BGR2RGB mask_img) edges_3ch.

(** Lines 95-98: does the loop over the detections hit its [return]? The
    confidence is a float32 scalar, so NumPy compares it with 0.40 rounded to
    float32. *)
Fixpoint person_detected (detections : list Box) : bool :=
  match detections with
  | [] => false
  | b :: rest =>
      if (Py.int (cls b) =? 0)%Z && float_lt (float32_round 0.40) (conf b) then true
      else person_detected rest
  end.

(** Some detection is of class 0 with a confidence above 0.40 as NumPy
    compares it: above the float32 nearest to 0.40. *)
Definition person_above_threshold (results : Results) : Prop :=
  exists b, In b (boxes results) /\ Py.int (cls b) = 0%Z
            /\ (float32_round 0.40 < conf b)%Q.

(** Lines 104-111: one result per catalog item, in catalog order. *)
Fixpoint score_catalog (query_vector : ndarray) (catalog : list CatalogItem)
  : M (list Match) :=
  match catalog with
  | [] => ret []
  | item :: rest =>
      d <- call (Cosine (name item)) (cosine query_vector (vector item)) ;;
      let sim := float32_rsub 1 d in
      let entry := mk_match (name item) (round1_float (float_mul sim 100))
                            (BASE_URL ++ "/static_images/" ++ name item) in
      results_list <- score_catalog query_vector rest ;;
      ret (entry :: results_list)
  end.

(** Lines 106-111: the entry built from one item and its cosine distance. *)
Definition entry_of (item : CatalogItem) (d : pyfloat) : Match :=
  let sim := float32_rsub 1 d in
  mk_match (name item) (round1_float (float_mul sim 100))
           (BASE_URL ++ "/static_images/" ++ name item).

(** The order of the result list: no smaller similarity comes first. *)
Definition not_below (a b : Match) : Prop :=
  match similarity a, similarity b with
  | Num x, Num y => (y <= x)%Q
  | _, _ => False
  end.


(** A stable sort, greatest similarity first. *)
Fixpoint insert_desc (x : Match) (l : list Match) : list Match :=
  match l with
  | [] => [x]
  | y :: t => if pyfloat_lt (similarity x) (similarity y)
              then y :: insert_desc x t
              else x :: y :: t
  end.

Fixpoint stable_desc (l : list Match) : list Match :=
  match l with
  | [] => []
  | x :: t => insert_desc x (stable_desc t)
  end.

(** [sorted(..., key=lambda x: x["similarity"], reverse=True)]: the stable
    descending sort when every key is a number. *)
Definition sorted_desc (l : list Match) : list Match :=
  if existsb (fun m => is_nan (similarity m)) l
  then sorted_unordered Match similarity l
  else stable_desc l.

(** Lines 113-114: the similarity at the head of the ranked top ten. *)
Definition best_similarity (results_list : list Match) : option pyfloat :=
  match firstn 10 (sorted_desc results_list) with
  | [] => None
  | best :: _ => Some (similarity best)
  end.

Definition search_ring (catalog : list CatalogItem) (file : list Byte.byte)
  : M search_response :=
  if (length catalog =? 0)%nat
  then ret (SearchError "Catalog is empty. Run indexing script.")
  else
    contents <- call FileRead (Ok file) ;;
    img <- call Imdecode (Ok (cv2_imdecode contents)) ;;
    results <- call (Yolo (Some 0.15%Q)) (yolo_model img (Some 0.15%Q)) ;;
    if person_detected (boxes results)
    then ret (SearchError "Invalid Image: Person detected. Please photograph only the ring.")
    else
      query_vector <- get_combined_embedding img ;;
      results_list <- score_catalog query_vector catalog ;;
      let top_10 := firstn 10 (sorted_desc results_list) in
      best <- lift (item0 top_10) ;;
      let best_sim := similarity best in
      if pyfloat_lt best_sim 38.0%Q
      then ret (SearchError "No matching ring detected. Try a closer, centered photo.")
      else ret (SearchResults top_10).

Definition remove_stone (image_name : string) : M image_response :=
  let img_path := os_path_join STATIC_IMG_PATH image_name in
  img <- call (Imread img_path) (Ok (cv2_imread img_path)) ;;
  match img with
  | None => ret (JsonError "Image not found")
  | Some img =>
      let gray := cv2_BGR2GRAY img in
      let structure_img := merge gray gray gray in
      results <- call (Yolo (Some 0.15%Q))
                      (yolo_model (Some structure_img) (Some 0.15%Q)) ;;
      match masks results with
      | Some data =>
          mask <- lift (item0 data) ;;
          let mask := cv2_resize mask (width img, height img) in
          let mask_uint8 := scale_to_uint8 mask in
          let kernel := ones 25 25 in
          let mask_expanded := cv2_dilate mask_uint8 kernel 1 in
          let empty_setting := cv2_inpaint structure_img mask_expanded 15 INPAINT_TELEA in
          im_png <- call Imencode (Ok (cv2_imencode ".png" empty_setting)) ;;
          ret (StreamingResponse im_png "image/png")
      | None =>
          im_png <- call Imencode (Ok (cv2_imencode ".png" structure_img)) ;;
          ret (StreamingResponse im_png "image/png")
      end
  end.

End WithRuntime.

Section GetMask.
Context {R : Runtime}.
(** [cv2.imencode(ext, bgra)[1].tobytes()] on a four-channel array. *)
Variable cv2_imencode_bgra : string -> image4 -> list Byte.byte.

Definition get_mask (image_name : string) : M image_response :=
  let img_path := os_path_join STATIC_IMG_PATH image_name in
  img <- call (Imread img_path) (Ok (cv2_imread img_path)) ;;
  match img with
  | None => ret (JsonError "Image not found")
  | Some img =>
      results <- call (Yolo (Some 0.15%Q)) (yolo_model (Some img) (Some 0.15%Q)) ;;
      match masks results with
      | Some data =>
          mask <- lift (item0 data) ;;
          let mask := cv2_resize mask (width img, height img) in
          let mask_uint8 := scale_to_uint8 mask in
          stone_only <- lift (bitwise_and img img mask_uint8) ;;
          let gray_stone := cv2_BGR2GRAY stone_only in
          bgra <- lift (merge4 gray_stone gray_stone gray_stone mask_uint8) ;;
          im_png <- call Imencode (Ok (cv2_imencode_bgra ".png" bgra)) ;;
          ret (StreamingResponse im_png "image/png")
      | None => ret (JsonError "No stone detected")
      end
  end.

End GetMask.
End Main.

(** ** Backend/index_catalog.py *)
Module IndexCatalog.
Import Numpy Torch Cv2 Env.

Definition IMG_FOLDER : string := "Rings/ring/".
Definition SAVE_PATH : string := "catalog_data.npy".

Section WithRuntime.
Context {R : Runtime}.

(** Lines 28-34. *)
Definition stone_view (cv2_img : image) (results : Results) : M image :=
  match masks results with
  | Some data =>
      mask <- lift (item0 data) ;;
      let mask := cv2_resize mask (width cv2_img, height cv2_img) in
      let mask_uint8 := scale_to_uint8 mask in
      lift (bitwise_and cv2_img cv2_img mask_uint8)
  | None => ret cv2_img
  end.

(** Lines 37-39. *)
Definition structure_view (cv2_img : image) : image :=
  let gray := cv2_BGR2GRAY cv2_img in
  let edges := cv2_Canny gray 100 200 in
  COLOR_GRAY2RGB edges.

(** Lines 48-53. *)
Definition stone_features_of (outputs_stone : clip_output) : outcome pyvalue :=
  match outputs_stone with
  | BaseModelOutputWithPooling pooler_output => Ok pooler_output
  | Tensor t => Ok (PTensor t)
  | Tuple items => item0 items
  | OtherObject last_hidden_state_cls _ => last_hidden_state_cls
  end.

(** Lines 60-65. *)
Definition edge_features_of (outputs_edge : clip_output) : outcome pyvalue :=
  match outputs_edge with
  | BaseModelOutputWithPooling pooler_output => Ok pooler_output
  | Tensor t => Ok (PTensor t)
  | Tuple items => item0 items
  | OtherObject _ getitem0 => getitem0
  end.

(** Lines 42-70: CLIP on the two views, then the fusion. *)
Definition embed_views (stone_rgb edges_3ch : image) : M ndarray :=
  outputs_stone <- call ClipFeatures (Ok (clip_image_features stone_rgb)) ;;
  stone_features <- lift (stone_features_of outputs_stone) ;;
  outputs_edge <- call ClipFeatures (Ok (clip_image_features edges_3ch)) ;;
  edge_features <- lift (edge_features_of outputs_edge) ;;
  combined <- lift (cat_dim1 stone_features edge_features) ;;
  ret (astype_float32 to_float32 (numpy_flatten combined)).

Definition get_combined_embedding (cv2_img : option image) : M ndarray :=
  results <- call (Yolo None) (yolo_model cv2_img None) ;;
  img <- lift (match cv2_img with
               | Some img => Ok img
               | None => Raise AttributeError
               end) ;;
  mask_img <- stone_view img results ;;
  let edges_3ch := structure_view img in
  embed_views (COLOR_BGR2RGB mask_img) edges_3ch.

(** Line 78: the names [run_indexing] keeps from the folder listing. *)
Definition is_image_name (f : string) : bool :=
  endswith_any (lower f) [".png"; ".jpg"; ".jpeg"]%string.

(** Lines 81-98: the records appended to [catalog_list], in order. *)
Fixpoint index_images (images : list string) : M (list CatalogItem) :=
  match images with
  | [] => ret []
  | img_name :: rest =>
      let path := os_path_join IMG_FOLDER img_name in
      img <- call (Imread path) (Ok (cv2_imread path)) ;;
      appended <- match img with
                  | Some img =>
                      try_except
                        (vector <- get_combined_embedding (Some img) ;;
                         ret [mk_item img_name vector])
                        (fun _ => ret [])
                  | None => ret []
                  end ;;
      catalog_list <- index_images rest ;;
      ret (appended ++ catalog_list)
  end.

(** The value is what [np.save] wrote to [SAVE_PATH], or [None] when the
    procedure returned without saving. *)
Definition run_indexing : M (option (list CatalogItem)) :=
  if negb (os_path_exists IMG_FOLDER) then ret None
  else
    let images := filter is_image_name (os_listdir IMG_FOLDER) in
    catalog_list <- index_images images ;;
    saved <- call (NpSave SAVE_PATH) (Ok catalog_list) ;;
    ret (Some saved).

End WithRuntime.
End IndexCatalog.

(** ** The specification's wording, where it is compared with the code *)
Module Spec.
Import Numpy Torch Cv2 Env.

(** "binarize at the 0.5 threshold scaled to [0,255]": 255 above one half,
    0 elsewhere. *)
Definition binarize (mask : fplane) : plane :=
  map (map (fun x : Q => if float_lt (1 # 2) x then 255%Z else 0%Z)) mask.

(** Step 1 as worded: first mask, resized, binarized, applied as a stencil. *)
Definition stone_view {R : Runtime} (cv2_img : image) (mask : fplane) : outcome image :=
  bitwise_and cv2_img cv2_img
              (binarize (cv2_resize mask (width cv2_img, height cv2_img))).

(** "A person class is detected above a 0.40 confidence threshold". *)
Definition person_above_040 (results : Results) : Prop :=
  exists b, In b (boxes results) /\ Py.int (cls b) = 0%Z /\ (0.40 < conf b)%Q.



End Spec.

(** ** A small concrete runtime, for running the model on examples *)
Module Demo.
Import Numpy Torch Cv2 Env.

Definition channel_sum (img : image) : Z :=
  fold_right (fun p acc => let '(a, b, c) := p in (a + b + c + acc)%Z) 0%Z (concat img).

(** A stand-in for CLIP: a 1 x 512 float32 tensor that depends on the image. *)
Definition clip (rgb : image) : clip_output :=
  Tensor (mk_tensor float32 [repeat (inject_Z (channel_sum rgb)) 512]).

Definition dot (u v : list Q) : Q :=
  fold_right Qplus 0%Q (map (fun ab : Q * Q => (fst ab * snd ab)%Q) (combine u v)).

(** The square root, cut off after 64 binary places (exact for squares). *)
Definition sqrt64 (x : Q) : Q :=
  let x := Qred x in
  Qred (Qmake (Z.sqrt (Qnum x * Zpos (Qden x) * 2 ^ 128)) (Qden x * 2 ^ 64)).

(** The cosine distance [1 - u.v / sqrt(u.u * v.v)], rounded to float32: NaN
    when a vector is zero; arrays of different sizes are refused as SciPy
    refuses them. *)
Definition cosine_distance (u v : ndarray) : outcome pyfloat :=
  if (length (nd_data u) =? length (nd_data v))%nat
  then
    let uv := Qred (dot (nd_data u) (nd_data v)) in
    let uu := Qred (dot (nd_data u) (nd_data u)) in
    let vv := Qred (dot (nd_data v) (nd_data v)) in
    if Qeq_bool (uu * vv) 0 then Ok NaN
    else Ok (Num (float32_round (1 - uv / sqrt64 (uu * vv))))
  else Raise ValueError.

(** 8-bit luma in fixed point. *)
Definition bgr2gray (img : image) : plane :=
  map (map (fun p : pixel =>
              let '(b, g, r) := p in
              ((b * 1868 + g * 9617 + r * 4899 + 8192) / 16384)%Z)) img.

(** A stand-in for the edge detector: bright pixels are edges. *)
Definition canny (gray : plane) (low high : Z) : plane :=
  map (map (fun v : Z => if (high <? v)%Z then 255%Z else 0%Z)) gray.

(** Dilation of an array smaller than the kernel: the maximum everywhere. *)
Definition dilate (src kernel : plane) (iterations : nat) : plane :=
  let top := fold_right Z.max 0%Z (concat src) in
  map (map (fun _ : Z => top)) src.

(** A stand-in for inpainting: masked pixels take the first pixel's value. *)
Definition inpaint (src : image) (mask : plane) (radius : Q) (flags : inpaint_flag)
  : image :=
  let fill := hd black (concat src) in
  map (fun row_mask : list pixel * list Z =>
         map (fun pm : pixel * Z => if (snd pm =? 0)%Z then fst pm else fill)
             (combine (fst row_mask) (snd row_mask)))
      (combine src mask).

Definition byte_of (v : Z) : Byte.byte :=
  match Byte.of_N (Z.to_N v) with
  | Some b => b
  | None => Byte.x00
  end.

(** A stand-in for the encoder: the first channel of every pixel. *)
Definition imencode (ext : string) (img : image) : list Byte.byte :=
  map (fun p : pixel => byte_of (fst (fst p))) (concat img).

(** A stand-in for the encoder of four-channel images: colour, then alpha. *)
Definition imencode_bgra (ext : string) (img : image4) : list Byte.byte :=
  flat_map (fun p : pixel4 => [byte_of (fst (fst (fst p))); byte_of (snd p)])
           (concat img).

Definition runtime
           (yolo : option image -> option Q -> outcome Results)
           (clip_features : image -> clip_output)
           (imdecode : list Byte.byte -> option image)
           (files : list (string * option image)) : Runtime :=
  {| yolo_model := yolo;
     cv2_resize := resize_linear;
     cv2_BGR2GRAY := bgr2gray;
     cv2_Canny := canny;
     clip_image_features := clip_features;
     to_float32 := float32_round;
     cosine := cosine_distance;
     sorted_unordered := fun _ _ l => l;
     sorted_unordered_perm := fun _ _ l => Permutation_refl l;
     cv2_imdecode := imdecode;
     cv2_imread := fun path =>
       match find (fun f => String.eqb (os_path_join "Rings/ring/" (fst f)) path) files with
       | Some f => snd f
       | None => None
       end;
     cv2_dilate := dilate;
     cv2_inpaint := inpaint;
     cv2_imencode := imencode;
     os_path_exists := fun path => String.eqb path "Rings/ring/";
     os_listdir := fun _ => map fst files |}.

(** A 1 x 4 picture and a 1 x 2 detector mask covering its right half. *)
Definition ring_img : image :=
  [[(10, 20, 30); (40, 50, 60); (70, 80, 90); (250, 250, 250)]]%Z.

Definition half_mask : fplane := [[0; 1]]%Q.

Definition ring_results : Results := mk_results (Some [half_mask]) [mk_box 41 0.9].

Definition no_mask_results : Results := mk_results None [].

Definition person_results : Results := mk_results None [mk_box 0 0.85].

Definition yolo_ring (img : option image) (conf : option Q) : outcome Results :=
  match img with
  | Some _ => Ok ring_results
  | None => Raise AttributeError
  end.

Definition yolo_nothing (img : option image) (conf : option Q) : outcome Results :=
  Ok no_mask_results.

Definition yolo_person (img : option image) (conf : option Q) : outcome Results :=
  Ok person_results.

Definition decode_ring (contents : list Byte.byte) : option image :=
  match contents with
  | [] => None
  | _ => Some ring_img
  end.

Definition upload : list Byte.byte := [Byte.x89; Byte.x50; Byte.x4e; Byte.x47].

Definition folder : list (string * option image) :=
  [("a.png", Some ring_img); ("notes.txt", Some ring_img);
   ("broken.jpg", None); ("B.JPEG", Some ring_img)]%string.

Definition ring_runtime : Runtime := runtime yolo_ring clip decode_ring folder.
Definition plain_runtime : Runtime := runtime yolo_nothing clip decode_ring folder.
Definition person_runtime : Runtime := runtime yolo_person clip decode_ring folder.

(** A catalog vector: 512 copies of [a], then 512 copies of [b]. *)
Definition vec (a b : Q) : ndarray := mk_ndarray float32 (repeat a 512 ++ repeat b 512).

(** The fused vector of [ring_img] under [ring_runtime]. *)
Definition ring_vector : ndarray := vec 1140 765.

(** A catalog item whose vector is [k] times [ring_vector]. *)
Definition scaled_item (n : string) (k : Z) : CatalogItem :=
  mk_item n (vec (inject_Z (1140 * k)) (inject_Z (765 * k))).

(** A catalog item of the norm of [ring_vector]: 512 copies of [a], then 512
    copies of [b], with [a^2 + b^2 = 1140^2 + 765^2]. *)
Definition turned_item (n : string) (a b : Z) : CatalogItem :=
  mk_item n (vec (inject_Z a) (inject_Z b)).

(** Twelve items at cosine similarities 0.8, 0.6, 0, 1, 0.8, 0.6, 0, -0.6,
    -0.8, -1, 1 and -0.6 from [ring_vector]. *)
Definition catalog12 : list CatalogItem :=
  [turned_item "r01.png" 453 1296; turned_item "r02.png" 72 1371;
   turned_item "r03.png" (-765) 1140; turned_item "r04.png" 1140 765;
   turned_item "r05.png" 1371 (-72); turned_item "r06.png" 1296 (-453);
   turned_item "r07.png" 765 (-1140); turned_item "r08.png" (-1296) 453;
   turned_item "r09.png" (-1371) 72; turned_item "r10.png" (-1140) (-765);
   turned_item "r11.png" 1140 765; turned_item "r12.png" (-72) (-1371)]%string.

(** Two items at cosine similarities -0.6 and 0 from [ring_vector]. *)
Definition faint_catalog : list CatalogItem :=
  [turned_item "r08.png" (-1296) 453; turned_item "r03.png" (-765) 1140]%string.


(** The distance [cosine_distance] assigns to an item. *)
Definition distance_from (query_vector : ndarray) (item : CatalogItem) : Q :=
  match cosine_distance query_vector (vector item) with
  | Ok (Num d) => d
  | _ => 0
  end.

(** A detection of class 0 whose confidence is the float32 nearest to 0.40. *)
Definition borderline_results : Results :=
  mk_results None [mk_box 0 (13421773 # 33554432)].

Definition yolo_borderline (img : option image) (conf : option Q) : outcome Results :=
  Ok borderline_results.

Definition borderline_runtime : Runtime :=
  runtime yolo_borderline clip decode_ring folder.

(** The fused vector of [ring_img] when no mask is found. *)
Definition plain_vector : ndarray := vec 1200 765.

End Demo.

(** * Properties *)

Import Numpy Torch Cv2 Env.

(** ** The call log and exceptions *)

Lemma bind_ext {A B} (c : M A) (k k' : A -> M B) :
  (forall a, k a = k' a) -> bind c k = bind c k'.
Proof.
  intros Hk. destruct c as [log [a | e]]; simpl; [rewrite Hk|]; reflexivity.
Qed.

Lemma bind_call_ok {A B} (ev : event) (a : A) (k : A -> M B) :
  bind (call ev (Ok a)) k = (ev :: log_of (k a), result_of (k a)).
Proof. unfold bind, call, log_of, result_of. destruct (k a); reflexivity. Qed.

Lemma bind_lift_ok {A B} (a : A) (k : A -> M B) : bind (lift (Ok a)) k = k a.
Proof. unfold bind, lift. destruct (k a); reflexivity. Qed.

Lemma bind_ret {A B} (a : A) (k : A -> M B) : bind (ret a) k = k a.
Proof. apply bind_lift_ok. Qed.

Lemma bind_pair_ok {A B} (log : list event) (a : A) (k : A -> M B) :
  bind (log, Ok a) k = (log ++ log_of (k a), result_of (k a)).
Proof. unfold bind, log_of, result_of. destruct (k a); reflexivity. Qed.

Lemma M_eta {A} (c : M A) : c = (log_of c, result_of c).
Proof. destruct c; reflexivity. Qed.

(** ** Floats *)

Lemma float_lt_true (x y : Q) : float_lt x y = true <-> (x < y)%Q.
Proof.
  unfold float_lt. rewrite negb_true_iff. split.
  - intros H. apply Qnot_le_lt. intros Hle.
    apply Qle_bool_iff in Hle. congruence.
  - intros H. destruct (Qle_bool y x) eqn:E; [|reflexivity].
    apply Qle_bool_iff in E. exfalso. exact (Qlt_not_le _ _ H E).
Qed.

Lemma float_lt_false (x y : Q) : float_lt x y = false <-> (y <= x)%Q.
Proof.
  unfold float_lt. rewrite negb_false_iff. apply Qle_bool_iff.
Qed.

(** ** The two copies of the embedding procedure *)

Section Embedding.
Context {R : Runtime}.

Lemma stone_view_same (img : image) (results : Results) :
  IndexCatalog.stone_view img results = Main.stone_view img results.
Proof. reflexivity. Qed.

Lemma structure_view_same (img : image) :
  IndexCatalog.structure_view img = Main.structure_view img.
Proof. reflexivity. Qed.

Lemma stone_features_agree (o : clip_output) :
  documented_output o -> IndexCatalog.stone_features_of o = Main.features_of o.
Proof. destruct o; simpl; intros H; [reflexivity .. | contradiction]. Qed.

Lemma edge_features_agree (o : clip_output) :
  documented_output o -> IndexCatalog.edge_features_of o = Main.features_of o.
Proof. destruct o; simpl; intros H; [reflexivity .. | contradiction]. Qed.

Lemma embed_views_agree (stone_rgb edges_3ch : image) :
  documented_output (clip_image_features stone_rgb) ->
  documented_output (clip_image_features edges_3ch) ->
  IndexCatalog.embed_views stone_rgb edges_3ch = Main.embed_views stone_rgb edges_3ch.
Proof.
  intros Hs He. unfold IndexCatalog.embed_views, Main.embed_views.
  rewrite !bind_call_ok. cbv beta.
  rewrite (stone_features_agree _ Hs).
  destruct (Main.features_of (clip_image_features stone_rgb)) as [fs | e];
    [|reflexivity].
  rewrite !bind_lift_ok, !bind_call_ok. cbv beta.
  rewrite (edge_features_agree _ He). reflexivity.
Qed.

Lemma get_combined_embedding_agree :
  (forall rgb, documented_output (clip_image_features rgb)) ->
  forall cv2_img,
    IndexCatalog.get_combined_embedding cv2_img = Main.get_combined_embedding cv2_img.
Proof.
  intros Hclip cv2_img.
  unfold IndexCatalog.get_combined_embedding, Main.get_combined_embedding.
  apply bind_ext; intros results.
  apply bind_ext; intros img.
  rewrite stone_view_same.
  apply bind_ext; intros mask_img.
  rewrite structure_view_same.
  apply embed_views_agree; apply Hclip.
Qed.

(** The two procedures part ways only on an output object of another kind,
    which the query side hands to [torch.cat] as it is. *)
Lemma features_differ_on_other_objects (t : tensor) :
  IndexCatalog.stone_features_of (OtherObject (Ok (PTensor t)) (Ok (PTensor t)))
  = Ok (PTensor t)
  /\ Main.features_of (OtherObject (Ok (PTensor t)) (Ok (PTensor t))) = Ok PObject.
Proof. split; reflexivity. Qed.

Lemma embeds_documented (o : clip_output) (e : list Q) :
  embeds o e -> documented_output o.
Proof. intros [_ [-> | ->]]; exact I. Qed.

Lemma embeds_features (o : clip_output) (e : list Q) :
  embeds o e -> Main.features_of o = Ok (PTensor (mk_tensor float32 [e])).
Proof. intros [_ [-> | ->]]; reflexivity. Qed.

Lemma embed_views_fused (stone_rgb edges_3ch : image) (stone edge : list Q) :
  embeds (clip_image_features stone_rgb) stone ->
  embeds (clip_image_features edges_3ch) edge ->
  Main.embed_views stone_rgb edges_3ch
  = ([ClipFeatures; ClipFeatures], Ok (mk_ndarray float32 (stone ++ edge))).
Proof.
  intros Hs He. unfold Main.embed_views.
  rewrite bind_call_ok. cbv beta.
  rewrite (embeds_features _ _ Hs), bind_lift_ok.
  rewrite bind_call_ok. cbv beta.
  rewrite (embeds_features _ _ He), bind_lift_ok.
  unfold astype_float32, numpy_flatten. simpl. rewrite app_nil_r. reflexivity.
Qed.

(** Whatever CLIP returns, a vector that comes back is stored as float32. *)
Lemma embed_views_float32 (stone_rgb edges_3ch : image) (v : ndarray) :
  result_of (Main.embed_views stone_rgb edges_3ch) = Ok v -> nd_dtype v = float32.
Proof.
  unfold Main.embed_views. rewrite bind_call_ok. simpl.
  destruct (Main.features_of (clip_image_features stone_rgb)) as [fs | ?];
    simpl; [|discriminate].
  destruct (Main.features_of (clip_image_features edges_3ch)) as [fe | ?];
    simpl; [|discriminate].
  destruct (cat_dim1 fs fe) as [c | ?]; simpl; [|discriminate].
  intros H. injection H as <-. unfold astype_float32.
  destruct (dtype_eqb _ _); reflexivity.
Qed.

Lemma get_combined_embedding_unfold (img : image) (results : Results) :
  yolo_model (Some img) None = Ok results ->
  Main.get_combined_embedding (Some img)
  = (_ <- call (Yolo None) (Ok results) ;;
     mask_img <- Main.stone_view img results ;;
     Main.embed_views (COLOR_BGR2RGB mask_img) (Main.structure_view img)).
Proof.
  intros Hy. unfold Main.get_combined_embedding. rewrite Hy.
  rewrite !bind_call_ok. rewrite bind_lift_ok. reflexivity.
Qed.

Lemma stone_view_log (img : image) (results : Results) :
  log_of (Main.stone_view img results) = [].
Proof.
  unfold Main.stone_view. destruct (masks results) as [[|m rest]|]; reflexivity.
Qed.

End Embedding.

Section Fusion.
Context {R : Runtime}.

Lemma stone_view_ret (img : image) (results : Results) (mask_img : image) :
  result_of (Main.stone_view img results) = Ok mask_img ->
  Main.stone_view img results = ret mask_img.
Proof.
  intros H. rewrite (M_eta (Main.stone_view img results)).
  rewrite stone_view_log, H. reflexivity.
Qed.

Lemma index_embedding_unfold (img : image) (results : Results) :
  yolo_model (Some img) None = Ok results ->
  IndexCatalog.get_combined_embedding (Some img)
  = (_ <- call (Yolo None) (Ok results) ;;
     mask_img <- Main.stone_view img results ;;
     IndexCatalog.embed_views (COLOR_BGR2RGB mask_img) (Main.structure_view img)).
Proof.
  intros Hy. unfold IndexCatalog.get_combined_embedding. rewrite Hy.
  rewrite !bind_call_ok. rewrite bind_lift_ok. reflexivity.
Qed.

Lemma embedding_of_views (img : image) (results : Results) (mask_img : image) :
  yolo_model (Some img) None = Ok results ->
  result_of (Main.stone_view img results) = Ok mask_img ->
  Main.get_combined_embedding (Some img)
  = (_ <- call (Yolo None) (Ok results) ;;
     Main.embed_views (COLOR_BGR2RGB mask_img) (Main.structure_view img))
  /\ IndexCatalog.get_combined_embedding (Some img)
     = (_ <- call (Yolo None) (Ok results) ;;
        IndexCatalog.embed_views (COLOR_BGR2RGB mask_img) (Main.structure_view img)).
Proof.
  intros Hy Hs. apply stone_view_ret in Hs.
  rewrite (get_combined_embedding_unfold _ _ Hy), (index_embedding_unfold _ _ Hy).
  rewrite Hs. split; apply bind_ext; intros _.
  - exact (bind_ret mask_img
             (fun m => Main.embed_views (COLOR_BGR2RGB m) (Main.structure_view img))).
  - exact (bind_ret mask_img
             (fun m => IndexCatalog.embed_views (COLOR_BGR2RGB m)
                                                (Main.structure_view img))).
Qed.

Lemma fused_embedding (img : image) (results : Results) (mask_img : image)
      (stone edge : list Q) :
  yolo_model (Some img) None = Ok results ->
  result_of (Main.stone_view img results) = Ok mask_img ->
  embeds (clip_image_features (COLOR_BGR2RGB mask_img)) stone ->
  embeds (clip_image_features (Main.structure_view img)) edge ->
  Main.get_combined_embedding (Some img)
  = ([Yolo None; ClipFeatures; ClipFeatures], Ok (mk_ndarray float32 (stone ++ edge)))
  /\ IndexCatalog.get_combined_embedding (Some img)
     = ([Yolo None; ClipFeatures; ClipFeatures], Ok (mk_ndarray float32 (stone ++ edge))).
Proof.
  intros Hy Hv Hs He.
  destruct (embedding_of_views _ _ _ Hy Hv) as [-> ->].
  rewrite (embed_views_agree _ _ (embeds_documented _ _ Hs) (embeds_documented _ _ He)).
  rewrite (embed_views_fused _ _ _ _ Hs He).
  split; reflexivity.
Qed.

End Fusion.

(** C1: for every input image, [get_combined_embedding] of index_catalog.py
    and [get_combined_embedding] of main.py make the same calls and return
    the same vector (or raise the same exception), whenever the CLIP model
    returns one of its documented kinds of output. *)
Theorem index_and_query_embeddings_identical {R : Runtime} :
  (forall rgb, documented_output (clip_image_features rgb)) ->
  forall img : image,
    IndexCatalog.get_combined_embedding (Some img)
    = Main.get_combined_embedding (Some img).
Proof.
  intros Hclip img. apply get_combined_embedding_agree. exact Hclip.
Qed.

Lemma index_and_query_embeddings_identical_witness :
  @IndexCatalog.get_combined_embedding Demo.ring_runtime (Some Demo.ring_img)
  = @Main.get_combined_embedding Demo.ring_runtime (Some Demo.ring_img).
Proof.
  apply (@index_and_query_embeddings_identical Demo.ring_runtime).
  intros rgb. simpl. exact I.
Defined.

(** C2: the vector returned by [get_combined_embedding], in both files, is
    the 512 stone-view features followed by the 512 structure-view features:
    one float32 vector of 1024 entries. *)
Theorem fused_vector_is_stone_then_structure {R : Runtime}
        (img : image) (results : Results) (mask_img : image) (stone edge : list Q) :
  yolo_model (Some img) None = Ok results ->
  result_of (Main.stone_view img results) = Ok mask_img ->
  embeds (clip_image_features (COLOR_BGR2RGB mask_img)) stone ->
  embeds (clip_image_features (Main.structure_view img)) edge ->
  exists fused : ndarray,
    result_of (Main.get_combined_embedding (Some img)) = Ok fused
    /\ result_of (IndexCatalog.get_combined_embedding (Some img)) = Ok fused
    /\ nd_dtype fused = float32
    /\ length (nd_data fused) = 1024%nat
    /\ firstn 512 (nd_data fused) = stone
    /\ skipn 512 (nd_data fused) = edge.
Proof.
  intros Hy Hv Hs He.
  destruct (fused_embedding _ _ _ _ _ Hy Hv Hs He) as [Hm Hi].
  exists (mk_ndarray float32 (stone ++ edge)).
  rewrite Hm, Hi. unfold result_of. cbn [snd nd_dtype nd_data].
  destruct Hs as [Ls _], He as [Le _].
  repeat split.
  - rewrite length_app, Ls, Le. reflexivity.
  - rewrite <- Ls. rewrite firstn_app, Nat.sub_diag, firstn_all. simpl.
    apply app_nil_r.
  - rewrite <- Ls. rewrite skipn_app, Nat.sub_diag, skipn_all. reflexivity.
Qed.

Lemma fused_vector_is_stone_then_structure_witness :
  exists fused : ndarray,
    result_of (@Main.get_combined_embedding Demo.ring_runtime (Some Demo.ring_img))
    = Ok fused
    /\ result_of (@IndexCatalog.get_combined_embedding Demo.ring_runtime
                                                       (Some Demo.ring_img))
       = Ok fused
    /\ nd_dtype fused = float32
    /\ length (nd_data fused) = 1024%nat
    /\ firstn 512 (nd_data fused) = repeat 1140%Q 512
    /\ skipn 512 (nd_data fused) = repeat 765%Q 512.
Proof.
  apply (@fused_vector_is_stone_then_structure Demo.ring_runtime Demo.ring_img
           Demo.ring_results
           [[black; (40, 50, 60); (70, 80, 90); (250, 250, 250)]]%Z).
  - reflexivity.
  - reflexivity.
  - split; [reflexivity | left; reflexivity].
  - split; [reflexivity | left; reflexivity].
Defined.



(** ** Arrays *)

Lemma nth_error_zip3_with {A B C D} (f : A -> B -> C -> D)
      (la : list A) (lb : list B) (lc : list C) (i : nat) (a : A) (b : B) (c : C) :
  nth_error la i = Some a -> nth_error lb i = Some b -> nth_error lc i = Some c ->
  nth_error (zip3_with f la lb lc) i = Some (f a b c).
Proof.
  revert la lb lc. induction i as [|i IH]; intros [|x la] [|y lb] [|z lc];
    simpl; try discriminate.
  - intros [= ->] [= ->] [= ->]. reflexivity.
  - apply IH.
Qed.

Lemma length_zip3_with {A B C D} (f : A -> B -> C -> D)
      (la : list A) (lb : list B) (lc : list C) :
  length la = length lb -> length la = length lc ->
  length (zip3_with f la lb lc) = length la.
Proof.
  revert lb lc. induction la as [|x la IH]; intros [|y lb] [|z lc];
    simpl; try discriminate; try reflexivity.
  intros [= Hb] [= Hc]. f_equal. apply IH; assumption.
Qed.

Lemma at2_zip3_with {A B C D} (f : A -> B -> C -> D)
      (ma : list (list A)) (mb : list (list B)) (mc : list (list C))
      (i j : nat) (a : A) (b : B) (c : C) :
  at2 ma i j = Some a -> at2 mb i j = Some b -> at2 mc i j = Some c ->
  at2 (zip3_with (zip3_with f) ma mb mc) i j = Some (f a b c).
Proof.
  unfold at2.
  destruct (nth_error ma i) as [ra|] eqn:Ea; [|discriminate].
  destruct (nth_error mb i) as [rb|] eqn:Eb; [|discriminate].
  destruct (nth_error mc i) as [rc|] eqn:Ec; [|discriminate].
  intros Ha Hb Hc.
  rewrite (nth_error_zip3_with (zip3_with f) _ _ _ _ _ _ _ Ea Eb Ec).
  apply nth_error_zip3_with; assumption.
Qed.

Lemma at2_map_map {A B} (f : A -> B) (m : list (list A)) (i j : nat) :
  at2 (map (map f) m) i j = option_map f (at2 m i j).
Proof.
  unfold at2. rewrite nth_error_map.
  destruct (nth_error m i) as [row|]; simpl; [|reflexivity].
  apply nth_error_map.
Qed.

Lemma same_shape_map {A B C} (f : B -> C) (a : list (list A)) (b : list (list B)) :
  same_shape a (map (map f) b) = same_shape a b.
Proof.
  revert b. induction a as [|ra a IH]; intros [|rb b]; simpl; try reflexivity.
  rewrite length_map, IH. reflexivity.
Qed.

Lemma same_shape_refl {A} (a : list (list A)) : same_shape a a = true.
Proof.
  induction a as [|r a IH]; simpl; [reflexivity|].
  rewrite Nat.eqb_refl. exact IH.
Qed.

Lemma same_shape_zip3_with {A B D} (f : A -> A -> B -> D)
      (a : list (list A)) (m : list (list B)) :
  same_shape a m = true ->
  same_shape a (zip3_with (zip3_with f) a a m) = true.
Proof.
  revert m. induction a as [|r a IH]; intros [|rm m]; simpl; try discriminate.
  - reflexivity.
  - intros H. apply andb_true_iff in H as [Hr Hm].
    apply Nat.eqb_eq in Hr.
    rewrite length_zip3_with by (reflexivity || assumption).
    rewrite Nat.eqb_refl. apply IH. exact Hm.
Qed.

Lemma same_shape_at2 {A B} (a : list (list A)) (b : list (list B)) (i j : nat) (x : A) :
  same_shape a b = true -> at2 a i j = Some x -> exists y, at2 b i j = Some y.
Proof.
  unfold at2. revert b i. induction a as [|ra a IH]; intros [|rb b] i; simpl;
    try discriminate.
  - destruct i; discriminate.
  - intros H. apply andb_true_iff in H as [Hr Hs]. apply Nat.eqb_eq in Hr.
    destruct i as [|i]; simpl.
    + intros Hx. assert (Hj : (j < length rb)%nat).
      { rewrite <- Hr. apply nth_error_Some. congruence. }
      apply nth_error_Some in Hj.
      destruct (nth_error rb j) as [y|]; [exists y; reflexivity | congruence].
    + apply IH. exact Hs.
Qed.

Lemma and_pixel_diag (p : pixel) : and_pixel p p = p.
Proof.
  destruct p as [[b g] r]. unfold and_pixel. rewrite !Z.land_diag. reflexivity.
Qed.

(** A mask value between 0 and 1 scales to a zero byte exactly when it is
    below 1/255. *)
Lemma scaled_mask_zero (x : Q) :
  (0 <= x <= 1)%Q ->
  (astype_uint8 (x * 255) =? 0)%Z = float_lt x (1 # 255).
Proof.
  intros [H0 H1]. destruct x as [n d].
  unfold Qle in H0, H1. simpl in H0, H1.
  unfold astype_uint8, Py.int. simpl Qnum. simpl Qden.
  assert (Hd : (0 < Z.pos d)%Z) by lia.
  assert (Hn : (0 <= n)%Z) by lia.
  replace (Z.pos (d * 1)) with (Z.pos d) by (rewrite Pos.mul_1_r; reflexivity).
  rewrite Z.quot_div_nonneg by lia.
  assert (Hq : (0 <= n * 255 / Z.pos d <= 255)%Z).
  { split; [apply Z.div_pos; lia|].
    apply Z.div_le_upper_bound; lia. }
  rewrite Z.mod_small by lia.
  destruct (float_lt (n # d) (1 # 255)) eqn:E.
  - apply float_lt_true in E. unfold Qlt in E. simpl in E.
    apply Z.eqb_eq. apply Z.div_small. lia.
  - apply float_lt_false in E. unfold Qle in E. simpl in E.
    apply Z.eqb_neq. intros Hz.
    assert (Hge : (1 <= n * 255 / Z.pos d)%Z).
    { apply Z.div_le_lower_bound; lia. }
    lia.
Qed.

(** ** The stone view *)

Section StoneView.
Context {R : Runtime}.

Lemma stone_view_masked (img : image) (results : Results)
      (mask : fplane) (others : list fplane) :
  masks results = Some (mask :: others) ->
  Main.stone_view img results
  = lift (bitwise_and img img
            (scale_to_uint8 (cv2_resize mask (width img, height img)))).
Proof.
  intros Hm. unfold Main.stone_view. rewrite Hm. simpl item0.
  exact (bind_lift_ok mask
           (fun m => lift (bitwise_and img img
                             (scale_to_uint8 (cv2_resize m (width img, height img)))))).
Qed.

Lemma bitwise_and_self (img : image) (mask_uint8 : plane) :
  same_shape img mask_uint8 = true ->
  bitwise_and img img mask_uint8
  = Ok (zip3_with (zip3_with and_under_mask) img img mask_uint8).
Proof.
  intros H. unfold bitwise_and. rewrite same_shape_refl, H. reflexivity.
Qed.

Lemma stencil_pixel (img : image) (mask_uint8 : plane) (i j : nat) (p : pixel) (v : Z) :
  at2 img i j = Some p ->
  at2 mask_uint8 i j = Some v ->
  at2 (zip3_with (zip3_with and_under_mask) img img mask_uint8) i j
  = Some (if (v =? 0)%Z then black else p).
Proof.
  intros Hp Hv. rewrite (at2_zip3_with _ _ _ _ _ _ _ _ _ Hp Hp Hv).
  unfold and_under_mask. rewrite and_pixel_diag. reflexivity.
Qed.

End StoneView.

(** C3, as the code has it: when the segmentation model produces a mask,
    [get_combined_embedding] takes the first one, resizes it to the image's
    height and width, scales it by 255 into 8 bits, and applies it as a
    stencil: a pixel of the stone view is zero where the scaled mask is zero,
    that is where the resized mask is below 1/255, and is the image's pixel
    everywhere else. No threshold at one half is applied. *)
Theorem stone_view_is_stencil_of_scaled_mask {R : Runtime}
        (img : image) (results : Results) (mask : fplane) (others : list fplane) :
  masks results = Some (mask :: others) ->
  same_shape img (cv2_resize mask (width img, height img)) = true ->
  exists stone : image,
    Main.stone_view img results = ret stone
    /\ IndexCatalog.stone_view img results = ret stone
    /\ same_shape img stone = true
    /\ (forall i j p v,
           at2 img i j = Some p ->
           at2 (scale_to_uint8 (cv2_resize mask (width img, height img))) i j = Some v ->
           at2 stone i j = Some (if (v =? 0)%Z then black else p))
    /\ (forall i j p x,
           at2 img i j = Some p ->
           at2 (cv2_resize mask (width img, height img)) i j = Some x ->
           (0 <= x <= 1)%Q ->
           at2 stone i j = Some (if float_lt x (1 # 255) then black else p)).
Proof.
  intros Hm Hshape.
  set (resized := cv2_resize mask (width img, height img)) in *.
  assert (Hshape8 : same_shape img (scale_to_uint8 resized) = true).
  { unfold scale_to_uint8. rewrite same_shape_map. exact Hshape. }
  exists (zip3_with (zip3_with and_under_mask) img img (scale_to_uint8 resized)).
  assert (Hv : Main.stone_view img results
               = ret (zip3_with (zip3_with and_under_mask) img img
                                (scale_to_uint8 resized))).
  { rewrite (stone_view_masked _ _ _ _ Hm). fold resized.
    rewrite (bitwise_and_self _ _ Hshape8). reflexivity. }
  split; [exact Hv|]. split; [exact Hv|].
  split; [apply same_shape_zip3_with; exact Hshape8|].
  split.
  - intros i j p v Hp Hv8. apply stencil_pixel; assumption.
  - intros i j p x Hp Hx Hrange.
    assert (Hv8 : at2 (scale_to_uint8 resized) i j = Some (astype_uint8 (x * 255))).
    { unfold scale_to_uint8. rewrite at2_map_map, Hx. reflexivity. }
    rewrite (stencil_pixel _ _ _ _ _ _ Hp Hv8).
    rewrite (scaled_mask_zero _ Hrange). reflexivity.
Qed.

Lemma stone_view_is_stencil_of_scaled_mask_witness :
  exists stone : image,
    @Main.stone_view Demo.ring_runtime Demo.ring_img Demo.ring_results = ret stone
    /\ @IndexCatalog.stone_view Demo.ring_runtime Demo.ring_img Demo.ring_results
       = ret stone
    /\ same_shape Demo.ring_img stone = true
    /\ (forall i j p v,
           at2 Demo.ring_img i j = Some p ->
           at2 (scale_to_uint8 (resize_linear Demo.half_mask (4, 1)%nat)) i j = Some v ->
           at2 stone i j = Some (if (v =? 0)%Z then black else p))
    /\ (forall i j p x,
           at2 Demo.ring_img i j = Some p ->
           at2 (resize_linear Demo.half_mask (4, 1)%nat) i j = Some x ->
           (0 <= x <= 1)%Q ->
           at2 stone i j = Some (if float_lt x (1 # 255) then black else p)).
Proof.
  apply (@stone_view_is_stencil_of_scaled_mask Demo.ring_runtime Demo.ring_img
           Demo.ring_results Demo.half_mask []); reflexivity.
Defined.

(** C3, as the specification words it, fails on a bilinear resize: the second
    pixel of the picture gets the mask value 1/4, below one half, yet the
    code keeps it in the stone view. *)
Lemma stone_view_not_binarized_at_half :
  at2 (@cv2_resize Demo.ring_runtime Demo.half_mask (4, 1)%nat) 0 1 = Some (1 # 4)
  /\ @Main.stone_view Demo.ring_runtime Demo.ring_img Demo.ring_results
     = ret [[black; (40, 50, 60); (70, 80, 90); (250, 250, 250)]]%Z
  /\ @Spec.stone_view Demo.ring_runtime Demo.ring_img Demo.half_mask
     = Ok [[black; black; (70, 80, 90); (250, 250, 250)]]%Z
  /\ result_of (@Main.stone_view Demo.ring_runtime Demo.ring_img Demo.ring_results)
     <> @Spec.stone_view Demo.ring_runtime Demo.ring_img Demo.half_mask.
Proof.
  repeat split; try reflexivity.
  vm_compute. discriminate.
Qed.

(** ** The search endpoint: the two early answers *)

Section SearchGates.
Context {R : Runtime}.

Lemma person_detected_true (detections : list Box) :
  Main.person_detected detections = true
  <-> exists b, In b detections /\ Py.int (cls b) = 0%Z
                /\ (float32_round 0.40 < conf b)%Q.
Proof.
  induction detections as [|b rest IH]; cbn [Main.person_detected In].
  - split; [discriminate | intros [b [[] _]]].
  - destruct ((Py.int (cls b) =? 0)%Z && float_lt (float32_round 0.40) (conf b)) eqn:E.
    + split; [|reflexivity]. intros _.
      apply andb_true_iff in E as [Ec Ef].
      exists b. split; [left; reflexivity|].
      split; [apply Z.eqb_eq, Ec | apply float_lt_true, Ef].
    + rewrite IH. split.
      * intros [b' [Hin Hb]]. exists b'. split; [right; exact Hin | exact Hb].
      * intros [b' [[<- | Hin] [Hc Hf]]].
        -- apply Z.eqb_eq in Hc. apply float_lt_true in Hf.
           rewrite Hc, Hf in E. discriminate.
        -- exists b'. split; [exact Hin | split; assumption].
Qed.

Lemma search_ring_empty (file : list Byte.byte) :
  Main.search_ring [] file
  = ([], Ok (Main.SearchError "Catalog is empty. Run indexing script.")).
Proof. reflexivity. Qed.

(** With a catalog, the request is read, decoded and run through the detector
    before anything else is decided. *)
Lemma search_ring_detects (catalog : list CatalogItem) (file : list Byte.byte)
      (results : Results) :
  catalog <> [] ->
  yolo_model (cv2_imdecode file) (Some 0.15%Q) = Ok results ->
  Main.search_ring catalog file
  = (_ <- call FileRead (Ok file) ;;
     _ <- call Imdecode (Ok (cv2_imdecode file)) ;;
     _ <- call (Yolo (Some 0.15%Q)) (Ok results) ;;
     if Main.person_detected (boxes results)
     then ret (Main.SearchError
                 "Invalid Image: Person detected. Please photograph only the ring.")
     else
       query_vector <- Main.get_combined_embedding (cv2_imdecode file) ;;
       results_list <- Main.score_catalog query_vector catalog ;;
       best <- lift (item0 (firstn 10 (Main.sorted_desc results_list))) ;;
       if pyfloat_lt (Main.similarity best) 38.0%Q
       then ret (Main.SearchError
                   "No matching ring detected. Try a closer, centered photo.")
       else ret (Main.SearchResults (firstn 10 (Main.sorted_desc results_list)))).
Proof.
  intros Hne Hy. unfold Main.search_ring.
  destruct catalog as [|item rest]; [contradiction|].
  cbn [length Nat.eqb]. rewrite !bind_call_ok. cbv beta. rewrite Hy.
  rewrite !bind_call_ok. reflexivity.
Qed.

End SearchGates.

(** C9: while the loaded catalog is empty, in particular when the catalog
    file could not be loaded at startup, [/search] answers with an error
    at once: the upload is not read, no model is run, nothing is embedded. *)
Theorem empty_catalog_answered_first {R : Runtime}
        (np_load : outcome (list CatalogItem)) (file : list Byte.byte) :
  length (Main.CATALOG_DATA np_load) = 0%nat \/ (exists e, np_load = Raise e) ->
  Main.search_ring (Main.CATALOG_DATA np_load) file
  = ([], Ok (Main.SearchError "Catalog is empty. Run indexing script.")).
Proof.
  intros [Hlen | [e ->]].
  - destruct (Main.CATALOG_DATA np_load); [apply search_ring_empty | discriminate].
  - apply search_ring_empty.
Qed.

Lemma empty_catalog_answered_first_witness :
  @Main.search_ring Demo.ring_runtime (Main.CATALOG_DATA (Raise ValueError)) Demo.upload
  = ([], Ok (Main.SearchError "Catalog is empty. Run indexing script.")).
Proof.
  apply (@empty_catalog_answered_first Demo.ring_runtime (Raise ValueError) Demo.upload).
  right. exists ValueError. reflexivity.
Defined.

(** The threshold as NumPy compares it with a float32 confidence. *)
Lemma float32_threshold : float32_round 0.40 = (13421773 # 33554432)%Q.
Proof. vm_compute. reflexivity. Qed.

(** C6, as the code has it: a request whose detections include class 0
    (person) with a confidence above the threshold as NumPy compares it, that
    is above the float32 nearest to 0.40, is answered with an error; with a
    catalog loaded it is the person error, returned right after the detector
    ran: no embedding is computed and no catalog vector is scored. *)
Theorem person_rejected_before_scoring {R : Runtime}
        (catalog : list CatalogItem) (file : list Byte.byte) (results : Results) :
  yolo_model (cv2_imdecode file) (Some 0.15%Q) = Ok results ->
  (exists b, In b (boxes results)
             /\ Py.int (cls b) = 0%Z
             /\ (float32_round 0.40 < conf b)%Q) ->
  (exists msg, result_of (Main.search_ring catalog file) = Ok (Main.SearchError msg))
  /\ (catalog <> [] ->
      Main.search_ring catalog file
      = ([FileRead; Imdecode; Yolo (Some 0.15%Q)],
         Ok (Main.SearchError
               "Invalid Image: Person detected. Please photograph only the ring.")))
  /\ (forall ev, In ev (log_of (Main.search_ring catalog file)) ->
                 ev <> ClipFeatures /\ forall n, ev <> Cosine n).
Proof.
  intros Hy Hp. apply (person_detected_true (boxes results)) in Hp.
  destruct catalog as [|item rest].
  - rewrite search_ring_empty. split; [eexists; reflexivity|].
    split; [intros H; contradiction|]. intros ev [].
  - assert (Hne : item :: rest <> []) by discriminate.
    rewrite (search_ring_detects _ _ _ Hne Hy), Hp.
    split; [eexists; reflexivity|].
    split; [intros _; reflexivity|].
    intros ev Hin. simpl in Hin.
    destruct Hin as [<- | [<- | [<- | []]]]; split; try discriminate;
      intros n; discriminate.
Qed.

Lemma person_rejected_before_scoring_witness :
  (exists msg,
      result_of (@Main.search_ring Demo.person_runtime
                                   [mk_item "a.png" (Demo.vec 1 1)] Demo.upload)
      = Ok (Main.SearchError msg))
  /\ ([mk_item "a.png" (Demo.vec 1 1)] <> [] ->
      @Main.search_ring Demo.person_runtime [mk_item "a.png" (Demo.vec 1 1)] Demo.upload
      = ([FileRead; Imdecode; Yolo (Some 0.15%Q)],
         Ok (Main.SearchError
               "Invalid Image: Person detected. Please photograph only the ring.")))
  /\ (forall ev,
         In ev (log_of (@Main.search_ring Demo.person_runtime
                                          [mk_item "a.png" (Demo.vec 1 1)] Demo.upload)) ->
         ev <> ClipFeatures /\ forall n, ev <> Cosine n).
Proof.
  apply (@person_rejected_before_scoring Demo.person_runtime
           [mk_item "a.png" (Demo.vec 1 1)] Demo.upload Demo.person_results).
  - reflexivity.
  - exists (mk_box 0 0.85). split; [left; reflexivity|].
    split; [reflexivity|]. unfold Qlt. vm_compute. reflexivity.
Defined.

(** C6, as the specification words it, fails at the threshold itself: a
    class-0 detection whose confidence is the float32 nearest to 0.40 lies
    above 0.40, yet it compares equal to the threshold in float32 and the
    request goes on to be embedded, scored and answered with its matches. *)
Lemma person_at_float32_threshold_not_rejected :
  @yolo_model Demo.borderline_runtime
              (@cv2_imdecode Demo.borderline_runtime Demo.upload) (Some 0.15%Q)
  = Ok Demo.borderline_results
  /\ Spec.person_above_040 Demo.borderline_results
  /\ @Main.search_ring Demo.borderline_runtime
        [mk_item "r01.png" Demo.plain_vector] Demo.upload
     = ([FileRead; Imdecode; Yolo (Some 0.15%Q); Yolo None; ClipFeatures;
         ClipFeatures; Cosine "r01.png"],
        Ok (Main.SearchResults
              [Main.mk_match "r01.png" (Num 100.0)
                             "http://192.168.1.106:8004/static_images/r01.png"]))
  /\ forall msg,
       result_of (@Main.search_ring Demo.borderline_runtime
                    [mk_item "r01.png" Demo.plain_vector] Demo.upload)
       <> Ok (Main.SearchError msg).
Proof.
  split; [reflexivity|]. split.
  - exists (mk_box 0 (13421773 # 33554432)). split; [left; reflexivity|].
    split; [reflexivity|]. unfold Qlt. simpl. lia.
  - assert (Hrun : @Main.search_ring Demo.borderline_runtime
                     [mk_item "r01.png" Demo.plain_vector] Demo.upload
                   = ([FileRead; Imdecode; Yolo (Some 0.15%Q); Yolo None; ClipFeatures;
                       ClipFeatures; Cosine "r01.png"],
                      Ok (Main.SearchResults
                            [Main.mk_match "r01.png" (Num 100.0)
                               "http://192.168.1.106:8004/static_images/r01.png"])))
      by (vm_compute; reflexivity).
    split; [exact Hrun|]. intros msg. rewrite Hrun. discriminate.
Qed.

(** ** Rounding to one decimal place *)

Lemma round_half_even_nearest (n : Z) (d : positive) :
  (- Z.pos d <= 2 * (round_half_even (n # d) * Z.pos d - n) <= Z.pos d)%Z.
Proof.
  unfold round_half_even. simpl Qnum. simpl Qden.
  pose proof (Z.div_mod n (Z.pos d) ltac:(lia)) as Hdm.
  pose proof (Z.mod_pos_bound n (Z.pos d) ltac:(lia)) as Hr.
  set (q := (n / Z.pos d)%Z) in *. set (r := (n mod Z.pos d)%Z) in *.
  destruct (Z.compare_spec (2 * r) (Z.pos d)) as [He | Hl | Hg].
  - destruct (Z.even q); nia.
  - nia.
  - nia.
Qed.

(** [round(x, 1)] is a whole number of tenths, at most one twentieth away
    from [x]. *)
Lemma round1_nearest_tenth (x : Q) :
  (exists k : Z, round1 x = k # 10) /\ (Qabs (round1 x - x) <= 1 # 20)%Q.
Proof.
  split; [eexists; reflexivity|].
  apply Qabs_Qle_condition.
  destruct x as [n d]. unfold round1.
  pose proof (round_half_even_nearest (n * 10) (d * 1)) as H.
  change ((n # d) * 10)%Q with ((n * 10) # (d * 1))%Q.
  set (z := round_half_even ((n * 10) # (d * 1))) in *.
  rewrite Pos.mul_1_r in H.
  unfold Qle, Qminus, Qplus, Qopp. simpl.
  rewrite ?Pos2Z.inj_mul. lia.
Qed.


(** ** Ranking: the stable descending sort and the cut at ten *)

Lemma not_below_trans (a b c : Main.Match) :
  Main.not_below a b -> Main.not_below b c -> Main.not_below a c.
Proof.
  unfold Main.not_below.
  destruct (Main.similarity a), (Main.similarity b), (Main.similarity c);
    try contradiction.
  intros Hab Hbc. eapply Qle_trans; eassumption.
Qed.

Lemma not_below_numbers (a b : Main.Match) (x y : Q) :
  Main.similarity a = Num x -> Main.similarity b = Num y ->
  (Main.not_below a b <-> (y <= x)%Q).
Proof. unfold Main.not_below. intros -> ->. reflexivity. Qed.

Lemma insert_desc_perm (x : Main.Match) (l : list Main.Match) :
  Permutation (Main.insert_desc x l) (x :: l).
Proof.
  induction l as [|y t IH]; simpl.
  - apply Permutation_refl.
  - destruct (pyfloat_lt (Main.similarity x) (Main.similarity y)).
    + eapply perm_trans; [apply perm_skip, IH | apply perm_swap].
    + apply Permutation_refl.
Qed.

Lemma stable_desc_perm (l : list Main.Match) : Permutation (Main.stable_desc l) l.
Proof.
  induction l as [|x t IH]; simpl.
  - apply perm_nil.
  - eapply perm_trans; [apply insert_desc_perm | apply perm_skip, IH].
Qed.

Lemma insert_desc_sorted (x : Main.Match) (l : list Main.Match) :
  is_nan (Main.similarity x) = false ->
  Forall (fun m => is_nan (Main.similarity m) = false) l ->
  StronglySorted Main.not_below l ->
  StronglySorted Main.not_below (Main.insert_desc x l).
Proof.
  intros Hx Hall Hs. induction Hs as [|y t Hs IH Hyt]; simpl.
  - constructor; constructor.
  - inversion Hall as [|? ? Hy Ht]; subst.
    destruct (Main.similarity x) as [sx|] eqn:Ex; [|discriminate].
    destruct (Main.similarity y) as [sy|] eqn:Ey; [|discriminate].
    cbn [pyfloat_lt]. destruct (float_lt sx sy) eqn:E.
    + apply float_lt_true in E. constructor; [apply IH; exact Ht|].
      apply (Permutation_Forall (Permutation_sym (insert_desc_perm x t))).
      constructor; [|exact Hyt].
      apply (not_below_numbers y x sy sx Ey Ex). apply Qlt_le_weak, E.
    + apply float_lt_false in E.
      assert (Hxy : Main.not_below x y)
        by (apply (not_below_numbers x y sx sy Ex Ey); exact E).
      constructor.
      * constructor; assumption.
      * constructor; [exact Hxy|].
        eapply Forall_impl; [|exact Hyt].
        intros z Hz. eapply not_below_trans; [exact Hxy | exact Hz].
Qed.

Lemma stable_desc_sorted (l : list Main.Match) :
  Forall (fun m => is_nan (Main.similarity m) = false) l ->
  StronglySorted Main.not_below (Main.stable_desc l).
Proof.
  induction 1 as [|x t Hx Ht IH]; simpl.
  - constructor.
  - apply insert_desc_sorted; [exact Hx | | exact IH].
    apply (Permutation_Forall (Permutation_sym (stable_desc_perm t))). exact Ht.
Qed.



Lemma in_firstn {A} (n : nat) (l : list A) (x : A) : In x (firstn n l) -> In x l.
Proof.
  intros H. rewrite <- (firstn_skipn n l). apply in_or_app. left. exact H.
Qed.


Lemma sorted_firstn (n : nat) (l : list Main.Match) :
  StronglySorted Main.not_below l -> StronglySorted Main.not_below (firstn n l).
Proof.
  intros H. revert n. induction H as [|x t Hs IH Hall]; intros [|n]; simpl;
    try constructor.
  - apply IH.
  - rewrite Forall_forall in *. intros y Hy. apply Hall.
    eapply in_firstn, Hy.
Qed.


Lemma sorted_head_is_best (best : Main.Match) (rest : list Main.Match) (n : nat)
      (l : list Main.Match) (b : Q) :
  StronglySorted Main.not_below l ->
  firstn (S n) l = best :: rest ->
  Main.similarity best = Num b ->
  forall r, In r l -> Main.not_below best r.
Proof.
  intros H Hf Hb r Hr. destruct l as [|x t]; [discriminate|].
  simpl in Hf. injection Hf as -> _.
  inversion H as [|? ? _ Hall]; subst.
  destruct Hr as [<- | Hr].
  - apply (not_below_numbers best best b b Hb Hb). apply Qle_refl.
  - rewrite Forall_forall in Hall. apply Hall, Hr.
Qed.

Section Sorted.
Context {R : Runtime}.

Lemma no_nan_forall (l : list Main.Match) :
  existsb (fun m => is_nan (Main.similarity m)) l = false
  <-> Forall (fun m => is_nan (Main.similarity m) = false) l.
Proof.
  induction l as [|x t IH]; simpl.
  - split; [constructor | reflexivity].
  - rewrite orb_false_iff, IH. split.
    + intros [Hx Ht]. constructor; assumption.
    + intros H. inversion H; subst. split; assumption.
Qed.

(** Whatever the keys, [sorted] rearranges the list. *)
Lemma sorted_desc_perm (l : list Main.Match) : Permutation (Main.sorted_desc l) l.
Proof.
  unfold Main.sorted_desc.
  destruct (existsb (fun m => is_nan (Main.similarity m)) l).
  - apply sorted_unordered_perm.
  - apply stable_desc_perm.
Qed.

Lemma sorted_desc_numbers (l : list Main.Match) :
  Forall (fun m => is_nan (Main.similarity m) = false) l ->
  Main.sorted_desc l = Main.stable_desc l.
Proof.
  intros H. apply no_nan_forall in H. unfold Main.sorted_desc. rewrite H.
  reflexivity.
Qed.

Lemma sorted_desc_sorted (l : list Main.Match) :
  Forall (fun m => is_nan (Main.similarity m) = false) l ->
  StronglySorted Main.not_below (Main.sorted_desc l).
Proof.
  intros H. rewrite (sorted_desc_numbers _ H). apply stable_desc_sorted, H.
Qed.


End Sorted.

(** ** The search endpoint: scoring, ranking and the quality gate *)

Lemma entry_similarity (item : CatalogItem) (d : Q) :
  Main.similarity (Main.entry_of item d)
  = Num (round1 (float32_round (1 - d) * 100)).
Proof. reflexivity. Qed.



Lemma scored_numbers (catalog : list CatalogItem) (dist : CatalogItem -> Q) :
  Forall (fun m => is_nan (Main.similarity m) = false)
         (map (fun item => Main.entry_of item (dist item)) catalog).
Proof. apply Forall_map, Forall_forall. intros item _. reflexivity. Qed.

Section Scoring.
Context {R : Runtime}.

Lemma score_catalog_run (query_vector : ndarray) (catalog : list CatalogItem)
      (dist : CatalogItem -> Q) :
  Forall (fun item => cosine query_vector (vector item) = Ok (Num (dist item))) catalog ->
  Main.score_catalog query_vector catalog
  = (map (fun item => Cosine (name item)) catalog,
     Ok (map (fun item => Main.entry_of item (dist item)) catalog)).
Proof.
  induction 1 as [|item rest Hd _ IH]; [reflexivity|].
  cbn [Main.score_catalog map]. rewrite Hd, bind_call_ok. cbv beta.
  rewrite IH, bind_pair_ok. cbn. rewrite app_nil_r. reflexivity.
Qed.

Lemma person_detected_false (results : Results) :
  ~ Main.person_above_threshold results ->
  Main.person_detected (boxes results) = false.
Proof.
  intros Hn. destruct (Main.person_detected (boxes results)) eqn:E; [|reflexivity].
  exfalso. apply Hn. apply person_detected_true. exact E.
Qed.

Lemma best_similarity_head (results_list : list Main.Match) (b : pyfloat) :
  Main.best_similarity results_list = Some b ->
  exists best rest,
    firstn 10 (Main.sorted_desc results_list) = best :: rest
    /\ Main.similarity best = b.
Proof.
  unfold Main.best_similarity.
  destruct (firstn 10 (Main.sorted_desc results_list)) as [|best rest];
    [discriminate|].
  intros [= <-]. exists best, rest. split; reflexivity.
Qed.

(** Among numbers, the head of the ranked list carries the greatest
    similarity of all. *)
Lemma best_similarity_is_greatest (results_list : list Main.Match) (b : Q) :
  Forall (fun m => is_nan (Main.similarity m) = false) results_list ->
  Main.best_similarity results_list = Some (Num b) ->
  forall r s, In r results_list -> Main.similarity r = Num s -> (s <= b)%Q.
Proof.
  intros Hnum H r s Hr Hs.
  destruct (best_similarity_head _ _ H) as [best [rest [Hf Hb]]].
  apply (not_below_numbers best r b s Hb Hs).
  apply (sorted_head_is_best best rest 9 (Main.sorted_desc results_list) b).
  - apply sorted_desc_sorted, Hnum.
  - exact Hf.
  - exact Hb.
  - apply (Permutation_in _ (Permutation_sym (sorted_desc_perm results_list))).
    exact Hr.
Qed.

Lemma best_similarity_exists (results_list : list Main.Match) :
  results_list <> [] -> exists b, Main.best_similarity results_list = Some b.
Proof.
  intros Hne. unfold Main.best_similarity.
  destruct (firstn 10 (Main.sorted_desc results_list)) as [|best rest] eqn:E.
  - exfalso. apply (f_equal (@length _)) in E.
    rewrite length_firstn, (Permutation_length (sorted_desc_perm results_list)) in E.
    destruct results_list; [contradiction | discriminate].
  - eexists. reflexivity.
Qed.

(** Among numbers the best similarity is a number. *)
Lemma best_similarity_number (results_list : list Main.Match) :
  results_list <> [] ->
  Forall (fun m => is_nan (Main.similarity m) = false) results_list ->
  exists b : Q, Main.best_similarity results_list = Some (Num b).
Proof.
  intros Hne Hnum. destruct (best_similarity_exists _ Hne) as [b Hb].
  destruct (best_similarity_head _ _ Hb) as [best [rest [Hf Hs]]].
  assert (Hin : In best results_list).
  { apply (Permutation_in _ (sorted_desc_perm results_list)).
    apply (in_firstn 10). rewrite Hf. left. reflexivity. }
  rewrite Forall_forall in Hnum. specialize (Hnum _ Hin).
  rewrite Hs in Hnum. destruct b as [q|]; [|discriminate].
  exists q. exact Hb.
Qed.

(** A request that gets past the detector and whose scoring succeeds is
    answered from the ranked list: the quality gate is the last step. *)
Lemma search_ring_scored (catalog : list CatalogItem) (file : list Byte.byte)
      (results : Results) (log_e : list event) (query_vector : ndarray)
      (dist : CatalogItem -> Q) (b : Q) :
  catalog <> [] ->
  yolo_model (cv2_imdecode file) (Some 0.15%Q) = Ok results ->
  ~ Main.person_above_threshold results ->
  Main.get_combined_embedding (cv2_imdecode file) = (log_e, Ok query_vector) ->
  Forall (fun item => cosine query_vector (vector item) = Ok (Num (dist item))) catalog ->
  Main.best_similarity (map (fun item => Main.entry_of item (dist item)) catalog)
  = Some (Num b) ->
  Main.search_ring catalog file
  = ([FileRead; Imdecode; Yolo (Some 0.15%Q)] ++ log_e
       ++ map (fun item => Cosine (name item)) catalog,
     Ok (if float_lt b 38.0
         then Main.SearchError "No matching ring detected. Try a closer, centered photo."
         else Main.SearchResults
                (firstn 10 (Main.sorted_desc
                              (map (fun item => Main.entry_of item (dist item)) catalog))))).
Proof.
  intros Hne Hy Hp He Hd Hb.
  rewrite (search_ring_detects _ _ _ Hne Hy).
  rewrite (person_detected_false _ Hp).
  rewrite He, (bind_pair_ok log_e query_vector). cbv beta.
  rewrite (score_catalog_run _ _ _ Hd).
  rewrite bind_pair_ok. cbv beta.
  destruct (best_similarity_head _ _ Hb) as [best [rest [Hf Hs]]].
  rewrite Hf. cbn [item0]. rewrite bind_lift_ok, Hs.
  rewrite !bind_call_ok. cbn [pyfloat_lt].
  destruct (float_lt b 38.0); cbn; rewrite app_nil_r; reflexivity.
Qed.

End Scoring.







(** ** Stone removal *)

Lemma ones_shape (rows cols : nat) :
  height (ones (S rows) cols) = S rows /\ width (ones (S rows) cols) = cols.
Proof.
  unfold height, width, ones. split.
  - apply repeat_length.
  - simpl. apply repeat_length.
Qed.

Lemma ones_entries (rows cols i j : nat) (v : Z) :
  at2 (ones rows cols) i j = Some v -> v = 1%Z.
Proof.
  unfold at2, ones.
  destruct (nth_error (repeat (repeat 1%Z cols) rows) i) as [row|] eqn:E;
    [|discriminate].
  apply nth_error_In, repeat_spec in E. subst row.
  intros H. apply nth_error_In, repeat_spec in H. exact H.
Qed.

(** C8: when the segmentation model produces a mask, [/remove_stone] dilates
    the scaled mask with a 25 x 25 kernel of ones (one iteration), inpaints
    the dilated region with the Telea method at radius 15, and returns the
    outcome encoded as a PNG. *)
Theorem remove_stone_dilates_then_inpaints {R : Runtime}
        (image_name : string) (img : image) (results : Results)
        (mask : fplane) (others : list fplane) :
  cv2_imread (os_path_join Main.STATIC_IMG_PATH image_name) = Some img ->
  yolo_model (Some (merge (cv2_BGR2GRAY img) (cv2_BGR2GRAY img) (cv2_BGR2GRAY img)))
             (Some 0.15%Q)
  = Ok results ->
  masks results = Some (mask :: others) ->
  exists (kernel mask_expanded : plane) (empty_setting : image),
    height kernel = 25%nat /\ width kernel = 25%nat
    /\ (forall i j v, at2 kernel i j = Some v -> v = 1%Z)
    /\ mask_expanded
       = cv2_dilate (scale_to_uint8 (cv2_resize mask (width img, height img))) kernel 1
    /\ empty_setting
       = cv2_inpaint (merge (cv2_BGR2GRAY img) (cv2_BGR2GRAY img) (cv2_BGR2GRAY img))
                     mask_expanded 15 INPAINT_TELEA
    /\ Main.remove_stone image_name
       = ([Imread (os_path_join Main.STATIC_IMG_PATH image_name);
           Yolo (Some 0.15%Q); Imencode],
          Ok (Main.StreamingResponse (cv2_imencode ".png" empty_setting) "image/png")).
Proof.
  intros Hread Hy Hm.
  exists (ones 25 25). eexists. eexists.
  split; [apply ones_shape|]. split; [apply ones_shape|].
  split; [apply ones_entries|].
  split; [reflexivity|]. split; [reflexivity|].
  unfold Main.remove_stone. rewrite Hread, bind_call_ok. cbv beta iota zeta.
  rewrite Hy, bind_call_ok. cbv beta. rewrite Hm. cbn [item0].
  rewrite bind_lift_ok, bind_call_ok. reflexivity.
Qed.

Lemma remove_stone_dilates_then_inpaints_witness :
  exists (kernel mask_expanded : plane) (empty_setting : image),
    height kernel = 25%nat /\ width kernel = 25%nat
    /\ (forall i j v, at2 kernel i j = Some v -> v = 1%Z)
    /\ mask_expanded
       = Demo.dilate (scale_to_uint8 (resize_linear Demo.half_mask (4, 1)%nat)) kernel 1
    /\ empty_setting
       = Demo.inpaint (merge (Demo.bgr2gray Demo.ring_img) (Demo.bgr2gray Demo.ring_img)
                             (Demo.bgr2gray Demo.ring_img))
                      mask_expanded 15 INPAINT_TELEA
    /\ @Main.remove_stone Demo.ring_runtime "a.png"
       = ([Imread "Rings/ring/a.png"; Yolo (Some 0.15%Q); Imencode],
          Ok (Main.StreamingResponse (Demo.imencode ".png" empty_setting) "image/png")).
Proof.
  apply (@remove_stone_dilates_then_inpaints Demo.ring_runtime "a.png" Demo.ring_img
           Demo.ring_results Demo.half_mask []); reflexivity.
Defined.

(** ** Indexing *)

Lemma endswith_suffix (s suffix : string) :
  endswith s suffix = true <-> exists stem, s = (stem ++ suffix)%string.
Proof.
  split.
  - induction s as [|c t IH]; cbn [endswith].
    + destruct (String.eqb EmptyString suffix) eqn:E; [|discriminate].
      apply String.eqb_eq in E. subst suffix. intros _.
      exists EmptyString. reflexivity.
    + destruct (String.eqb (String c t) suffix) eqn:E.
      * apply String.eqb_eq in E. subst suffix. intros _.
        exists EmptyString. reflexivity.
      * intros H. destruct (IH H) as [stem ->].
        exists (String c stem). reflexivity.
  - intros [stem ->]. induction stem as [|c stem IH].
    + cbn [append]. destruct suffix; cbn [endswith]; rewrite String.eqb_refl;
        reflexivity.
    + cbn [append endswith]. rewrite IH.
      destruct (String.eqb _ suffix); reflexivity.
Qed.

Lemma is_image_name_spec (f : string) :
  IndexCatalog.is_image_name f = true
  <-> exists stem ext,
        In ext [".png"; ".jpg"; ".jpeg"]%string /\ lower f = (stem ++ ext)%string.
Proof.
  unfold IndexCatalog.is_image_name, endswith_any. rewrite existsb_exists. split.
  - intros [ext [Hin He]]. apply endswith_suffix in He as [stem Hs].
    exists stem, ext. split; assumption.
  - intros [stem [ext [Hin Hs]]]. exists ext. split; [exact Hin|].
    apply endswith_suffix. exists stem. exact Hs.
Qed.

Lemma result_of_bind_ok {A B} (c : M A) (k : A -> M B) (a : A) :
  result_of c = Ok a -> result_of (bind c k) = result_of (k a).
Proof.
  destruct c as [log r]. unfold result_of. simpl. intros ->.
  destruct (k a); reflexivity.
Qed.

Section Indexing.
Context {R : Runtime}.

(** What one pass of the loop appends for the file [img_name]. *)
Lemma indexed_one (img_name : string) :
  exists appended,
    result_of
      (img <- call (Imread (os_path_join IndexCatalog.IMG_FOLDER img_name))
                   (Ok (cv2_imread (os_path_join IndexCatalog.IMG_FOLDER img_name))) ;;
       match img with
       | Some img =>
           try_except
             (vector <- IndexCatalog.get_combined_embedding (Some img) ;;
              ret [mk_item img_name vector])
             (fun _ => ret [])
       | None => ret []
       end)
    = Ok appended
    /\ forall item,
         In item appended
         <-> name item = img_name
             /\ exists img,
                  cv2_imread (os_path_join IndexCatalog.IMG_FOLDER img_name) = Some img
                  /\ result_of (IndexCatalog.get_combined_embedding (Some img))
                     = Ok (vector item).
Proof.
  rewrite bind_call_ok. unfold result_of at 1. cbn [snd].
  destruct (cv2_imread (os_path_join IndexCatalog.IMG_FOLDER img_name)) as [img|].
  - destruct (IndexCatalog.get_combined_embedding (Some img)) as [log [v | e]] eqn:E.
    + exists [mk_item img_name v]. split; [reflexivity|].
      intros item. split.
      * intros [<- | []]. split; [reflexivity|]. exists img.
        split; [reflexivity | rewrite E; reflexivity].
      * intros [Hn [img' [[= <-] Hv]]]. left.
        rewrite E in Hv. unfold result_of in Hv. cbn [snd] in Hv.
        injection Hv as Hv. destruct item as [n vec]. simpl in *. subst. reflexivity.
    + exists []. split; [reflexivity|].
      intros item. split; [intros []|].
      intros [_ [img' [[= <-] Hv]]]. rewrite E in Hv. discriminate.
  - exists []. split; [reflexivity|].
    intros item. split; [intros [] | intros [_ [img' [Hf _]]]; discriminate].
Qed.

Lemma index_images_records (images : list string) :
  exists catalog_list,
    result_of (IndexCatalog.index_images images) = Ok catalog_list
    /\ forall item,
         In item catalog_list
         <-> In (name item) images
             /\ exists img,
                  cv2_imread (os_path_join IndexCatalog.IMG_FOLDER (name item)) = Some img
                  /\ result_of (IndexCatalog.get_combined_embedding (Some img))
                     = Ok (vector item).
Proof.
  induction images as [|img_name rest [tail [Htail Hin_tail]]].
  - exists []. split; [reflexivity|].
    intros item. split; [intros [] | intros [[] _]].
  - destruct (indexed_one img_name) as [appended [Happ Hin_app]].
    exists (appended ++ tail). split.
    + cbn [IndexCatalog.index_images].
      rewrite bind_call_ok in Happ.
      rewrite bind_call_ok. unfold result_of at 1. cbn [snd].
      unfold result_of at 1 in Happ. cbn [snd] in Happ.
      rewrite (result_of_bind_ok _ _ _ Happ).
      rewrite (result_of_bind_ok _ _ _ Htail). reflexivity.
    + intros item. rewrite in_app_iff, Hin_app, Hin_tail. cbn [In]. split.
      * intros [[Hn Himg] | [Hr Himg]].
        -- split; [left; symmetry; exact Hn|]. rewrite Hn. exact Himg.
        -- split; [right; exact Hr | exact Himg].
      * intros [[Hn | Hr] Himg].
        -- left. split; [symmetry; exact Hn|]. rewrite Hn. exact Himg.
        -- right. split; assumption.
Qed.

Lemma embedding_shape (img : image) (v : ndarray) :
  (forall rgb, exists e, embeds (clip_image_features rgb) e) ->
  result_of (IndexCatalog.get_combined_embedding (Some img)) = Ok v ->
  nd_dtype v = float32 /\ length (nd_data v) = 1024%nat.
Proof.
  intros Hclip Hv.
  destruct (yolo_model (Some img) None) as [results | e] eqn:Hy.
  2: { unfold IndexCatalog.get_combined_embedding in Hv. rewrite Hy in Hv.
       discriminate. }
  destruct (result_of (Main.stone_view img results)) as [mask_img | e] eqn:Hs.
  2: { rewrite (index_embedding_unfold _ _ Hy), bind_call_ok in Hv.
       cbv beta in Hv.
       rewrite (M_eta (Main.stone_view img results)), stone_view_log, Hs in Hv.
       discriminate. }
  destruct (Hclip (COLOR_BGR2RGB mask_img)) as [stone Hst].
  destruct (Hclip (Main.structure_view img)) as [edge Hed].
  destruct (fused_embedding _ _ _ _ _ Hy Hs Hst Hed) as [_ Hi].
  rewrite Hi in Hv. unfold result_of in Hv. cbn [snd] in Hv.
  injection Hv as <-. cbn [nd_dtype nd_data].
  split; [reflexivity|].
  destruct Hst as [Ls _], Hed as [Le _]. rewrite length_app, Ls, Le. reflexivity.
Qed.

End Indexing.

(** C10: every record [run_indexing] writes pairs the name of a listed file
    whose lower-cased name ends in .png, .jpg or .jpeg with the vector
    [get_combined_embedding] returned for that decoded file, a float32 vector
    of 1024 entries; a file that does not decode, or whose embedding raises,
    adds no record and does not stop the run, and every other image file has
    its record. *)
Theorem indexed_records_are_well_formed {R : Runtime} :
  (forall rgb, exists e, embeds (clip_image_features rgb) e) ->
  os_path_exists IndexCatalog.IMG_FOLDER = true ->
  exists catalog : list CatalogItem,
    result_of IndexCatalog.run_indexing = Ok (Some catalog)
    /\ (forall item,
           In item catalog
           <-> In (name item) (os_listdir IndexCatalog.IMG_FOLDER)
               /\ (exists stem ext,
                      In ext [".png"; ".jpg"; ".jpeg"]%string
                      /\ lower (name item) = (stem ++ ext)%string)
               /\ exists img,
                    cv2_imread (os_path_join IndexCatalog.IMG_FOLDER (name item))
                    = Some img
                    /\ result_of (IndexCatalog.get_combined_embedding (Some img))
                       = Ok (vector item))
    /\ (forall item,
           In item catalog ->
           nd_dtype (vector item) = float32
           /\ length (nd_data (vector item)) = 1024%nat).
Proof.
  intros Hclip Hfolder.
  destruct (index_images_records
              (filter IndexCatalog.is_image_name (os_listdir IndexCatalog.IMG_FOLDER)))
    as [catalog [Hrun Hin]].
  exists catalog. split.
  { unfold IndexCatalog.run_indexing. rewrite Hfolder. cbn [negb].
    rewrite (result_of_bind_ok _ _ _ Hrun), bind_call_ok. reflexivity. }
  assert (Hrec : forall item,
             In item catalog
             <-> In (name item) (os_listdir IndexCatalog.IMG_FOLDER)
                 /\ (exists stem ext,
                        In ext [".png"; ".jpg"; ".jpeg"]%string
                        /\ lower (name item) = (stem ++ ext)%string)
                 /\ exists img,
                      cv2_imread (os_path_join IndexCatalog.IMG_FOLDER (name item))
                      = Some img
                      /\ result_of (IndexCatalog.get_combined_embedding (Some img))
                         = Ok (vector item)).
  { intros item. rewrite Hin, filter_In, is_image_name_spec. tauto. }
  split; [exact Hrec|].
  intros item Hitem. apply Hrec in Hitem as [_ [_ [img [_ Hv]]]].
  exact (embedding_shape img _ Hclip Hv).
Qed.

Lemma indexed_records_are_well_formed_witness :
  exists catalog : list CatalogItem,
    result_of (@IndexCatalog.run_indexing Demo.ring_runtime) = Ok (Some catalog)
    /\ map name catalog = ["a.png"; "B.JPEG"]%string
    /\ (forall item,
           In item catalog ->
           nd_dtype (vector item) = float32
           /\ length (nd_data (vector item)) = 1024%nat).
Proof.
  destruct (@indexed_records_are_well_formed Demo.ring_runtime)
    as [catalog [Hrun [_ Hshape]]].
  - intros rgb. exists (repeat (inject_Z (Demo.channel_sum rgb)) 512).
    split; [apply repeat_length | left; reflexivity].
  - reflexivity.
  - exists catalog. split; [exact Hrun|]. split; [|exact Hshape].
    assert (Hc : result_of (@IndexCatalog.run_indexing Demo.ring_runtime)
                 = Ok (Some [mk_item "a.png" (Demo.vec 1140 765);
                             mk_item "B.JPEG" (Demo.vec 1140 765)]))
      by (vm_compute; reflexivity).
    rewrite Hc in Hrun. injection Hrun as <-. reflexivity.
Defined.

(** * Further properties of the two files *)

(** ** Reading a computation backwards *)

Lemma result_of_bind_inv {A B} (c : M A) (k : A -> M B) (b : B) :
  result_of (bind c k) = Ok b ->
  exists a, result_of c = Ok a /\ result_of (k a) = Ok b.
Proof.
  destruct c as [log [a | e]]; unfold result_of; simpl.
  - destruct (k a) as [log' r] eqn:E. simpl. intros ->.
    exists a. rewrite E. split; reflexivity.
  - discriminate.
Qed.

Lemma log_of_bind_ok {A B} (c : M A) (k : A -> M B) (a : A) :
  result_of c = Ok a -> log_of (bind c k) = log_of c ++ log_of (k a).
Proof.
  destruct c as [log r]. unfold result_of, log_of. simpl. intros ->.
  destruct (k a); reflexivity.
Qed.

Lemma bind_raise {A B} (log : list event) (e : exn) (k : A -> M B) :
  bind (log, Raise e) k = (log, Raise e).
Proof. reflexivity. Qed.

Lemma bind_call_raise {A B} (ev : event) (e : exn) (k : A -> M B) :
  bind (call ev (Raise e)) k = ([ev], Raise e).
Proof. reflexivity. Qed.

Lemma result_of_pair {A} (log : list event) (r : outcome A) : result_of (log, r) = r.
Proof. reflexivity. Qed.

Lemma log_of_pair {A} (log : list event) (r : outcome A) : log_of (log, r) = log.
Proof. reflexivity. Qed.

(** ** What a returned embedding always looks like *)

Section EmbeddingInvariants.
Context {R : Runtime}.

Lemma main_embed_views_inv (stone_rgb edges_3ch : image) (v : ndarray) :
  result_of (Main.embed_views stone_rgb edges_3ch) = Ok v ->
  nd_dtype v = float32
  /\ log_of (Main.embed_views stone_rgb edges_3ch) = [ClipFeatures; ClipFeatures].
Proof.
  unfold Main.embed_views. rewrite bind_call_ok. cbv beta.
  destruct (Main.features_of (clip_image_features stone_rgb)) as [fs | ?];
    [rewrite bind_lift_ok | discriminate].
  rewrite bind_call_ok. cbv beta.
  destruct (Main.features_of (clip_image_features edges_3ch)) as [fe | ?];
    [rewrite bind_lift_ok | discriminate].
  destruct (cat_dim1 fs fe) as [c | ?]; [rewrite bind_lift_ok | discriminate].
  unfold result_of, log_of, ret. cbn [fst snd].
  intros [= <-]. split; [|reflexivity].
  unfold astype_float32. destruct (dtype_eqb _ _); reflexivity.
Qed.

Lemma index_embed_views_inv (stone_rgb edges_3ch : image) (v : ndarray) :
  result_of (IndexCatalog.embed_views stone_rgb edges_3ch) = Ok v ->
  nd_dtype v = float32
  /\ log_of (IndexCatalog.embed_views stone_rgb edges_3ch)
     = [ClipFeatures; ClipFeatures].
Proof.
  unfold IndexCatalog.embed_views. rewrite bind_call_ok. cbv beta.
  destruct (IndexCatalog.stone_features_of (clip_image_features stone_rgb)) as [fs | ?];
    [rewrite bind_lift_ok | discriminate].
  rewrite bind_call_ok. cbv beta.
  destruct (IndexCatalog.edge_features_of (clip_image_features edges_3ch)) as [fe | ?];
    [rewrite bind_lift_ok | discriminate].
  destruct (cat_dim1 fs fe) as [c | ?]; [rewrite bind_lift_ok | discriminate].
  unfold result_of, log_of, ret. cbn [fst snd].
  intros [= <-]. split; [|reflexivity].
  unfold astype_float32. destruct (dtype_eqb _ _); reflexivity.
Qed.

(** A stone view either is an image, with nothing logged, or an exception. *)
Lemma stone_view_cases (img : image) (results : Results) :
  (exists mask_img, Main.stone_view img results = ret mask_img)
  \/ (exists e, Main.stone_view img results = raise e).
Proof.
  rewrite (M_eta (Main.stone_view img results)), stone_view_log.
  destruct (result_of (Main.stone_view img results)) as [m | e];
    [left; exists m | right; exists e]; reflexivity.
Qed.

Lemma main_embedding_inv (cv2_img : option image) (v : ndarray) :
  result_of (Main.get_combined_embedding cv2_img) = Ok v ->
  nd_dtype v = float32
  /\ log_of (Main.get_combined_embedding cv2_img) = [Yolo None; ClipFeatures; ClipFeatures]
  /\ exists img results,
       cv2_img = Some img /\ yolo_model (Some img) None = Ok results.
Proof.
  unfold Main.get_combined_embedding.
  destruct (yolo_model cv2_img None) as [results | e] eqn:Hy;
    [rewrite bind_call_ok | rewrite bind_call_raise; discriminate].
  cbv beta. destruct cv2_img as [img|]; [rewrite bind_lift_ok | discriminate].
  destruct (stone_view_cases img results) as [[mask_img ->] | [e ->]];
    [rewrite bind_ret | discriminate].
  rewrite result_of_pair, log_of_pair. intros Hv.
  destruct (main_embed_views_inv _ _ _ Hv) as [Hd Hl].
  split; [exact Hd|]. split; [rewrite Hl; reflexivity|].
  exists img, results. split; [reflexivity | exact Hy].
Qed.

Lemma index_embedding_inv (cv2_img : option image) (v : ndarray) :
  result_of (IndexCatalog.get_combined_embedding cv2_img) = Ok v ->
  nd_dtype v = float32
  /\ log_of (IndexCatalog.get_combined_embedding cv2_img)
     = [Yolo None; ClipFeatures; ClipFeatures]
  /\ exists img results,
       cv2_img = Some img /\ yolo_model (Some img) None = Ok results.
Proof.
  unfold IndexCatalog.get_combined_embedding.
  destruct (yolo_model cv2_img None) as [results | e] eqn:Hy;
    [rewrite bind_call_ok | rewrite bind_call_raise; discriminate].
  cbv beta. destruct cv2_img as [img|]; [rewrite bind_lift_ok | discriminate].
  rewrite stone_view_same.
  destruct (stone_view_cases img results) as [[mask_img ->] | [e ->]];
    [rewrite bind_ret | discriminate].
  rewrite result_of_pair, log_of_pair. intros Hv.
  destruct (index_embed_views_inv _ _ _ Hv) as [Hd Hl].
  split; [exact Hd|]. split; [rewrite Hl; reflexivity|].
  exists img, results. split; [reflexivity | exact Hy].
Qed.

(** Without an image the procedure stops after the detector call. *)
Lemma embedding_of_none :
  (exists e, Main.get_combined_embedding None = ([Yolo None], Raise e)
             /\ (forall r, yolo_model None None = Ok r -> e = AttributeError))
  /\ (exists e, IndexCatalog.get_combined_embedding None = ([Yolo None], Raise e)
                /\ (forall r, yolo_model None None = Ok r -> e = AttributeError)).
Proof.
  unfold Main.get_combined_embedding, IndexCatalog.get_combined_embedding.
  destruct (yolo_model None None) as [r | e].
  - rewrite !bind_call_ok. split; exists AttributeError; split;
      try reflexivity; intros; reflexivity.
  - rewrite !bind_call_raise. split; exists e; split;
      try reflexivity; intros; discriminate.
Qed.

End EmbeddingInvariants.

(** X1: whatever the CLIP model returns, a vector that comes back from
    [get_combined_embedding], in either file, is stored as float32, was
    computed from an image that is not [None], and cost exactly one detector
    call followed by two CLIP calls. *)
Theorem returned_embedding_invariants {R : Runtime}
        (cv2_img : option image) (v : ndarray) :
  result_of (Main.get_combined_embedding cv2_img) = Ok v
  \/ result_of (IndexCatalog.get_combined_embedding cv2_img) = Ok v ->
  nd_dtype v = float32
  /\ (exists img results,
         cv2_img = Some img /\ yolo_model (Some img) None = Ok results)
  /\ (forall w, result_of (Main.get_combined_embedding cv2_img) = Ok w ->
                log_of (Main.get_combined_embedding cv2_img)
                = [Yolo None; ClipFeatures; ClipFeatures])
  /\ (forall w, result_of (IndexCatalog.get_combined_embedding cv2_img) = Ok w ->
                log_of (IndexCatalog.get_combined_embedding cv2_img)
                = [Yolo None; ClipFeatures; ClipFeatures]).
Proof.
  intros H.
  assert (Hv : nd_dtype v = float32
               /\ exists img results,
                    cv2_img = Some img /\ yolo_model (Some img) None = Ok results).
  { destruct H as [H | H].
    - destruct (main_embedding_inv _ _ H) as [Hd [_ He]]. split; assumption.
    - destruct (index_embedding_inv _ _ H) as [Hd [_ He]]. split; assumption. }
  destruct Hv as [Hd He]. split; [exact Hd|]. split; [exact He|]. split.
  - intros w Hw. apply (main_embedding_inv _ _ Hw).
  - intros w Hw. apply (index_embedding_inv _ _ Hw).
Qed.

Lemma returned_embedding_invariants_witness :
  nd_dtype Demo.ring_vector = float32
  /\ (exists img results,
         Some Demo.ring_img = Some img
         /\ @yolo_model Demo.ring_runtime (Some img) None = Ok results)
  /\ (forall w,
         result_of (@Main.get_combined_embedding Demo.ring_runtime (Some Demo.ring_img))
         = Ok w ->
         log_of (@Main.get_combined_embedding Demo.ring_runtime (Some Demo.ring_img))
         = [Yolo None; ClipFeatures; ClipFeatures])
  /\ (forall w,
         result_of (@IndexCatalog.get_combined_embedding Demo.ring_runtime
                                                         (Some Demo.ring_img))
         = Ok w ->
         log_of (@IndexCatalog.get_combined_embedding Demo.ring_runtime
                                                      (Some Demo.ring_img))
         = [Yolo None; ClipFeatures; ClipFeatures]).
Proof.
  apply (@returned_embedding_invariants Demo.ring_runtime (Some Demo.ring_img)
           Demo.ring_vector).
  left. vm_compute. reflexivity.
Defined.

(** ** Reading a search response backwards *)

Section SearchInversion.
Context {R : Runtime}.

Lemma score_catalog_inv (query_vector : ndarray) (catalog : list CatalogItem)
      (results_list : list Main.Match) :
  result_of (Main.score_catalog query_vector catalog) = Ok results_list ->
  Forall2 (fun item r => exists d, cosine query_vector (vector item) = Ok d
                                   /\ r = Main.entry_of item d)
          catalog results_list
  /\ log_of (Main.score_catalog query_vector catalog)
     = map (fun item => Cosine (name item)) catalog.
Proof.
  revert results_list. induction catalog as [|item rest IH]; intros results_list.
  - cbn. intros [= <-]. split; [constructor | reflexivity].
  - cbn [Main.score_catalog map].
    destruct (cosine query_vector (vector item)) as [d | e] eqn:Hd;
      [rewrite bind_call_ok | rewrite bind_call_raise; discriminate].
    cbv beta. rewrite result_of_pair, log_of_pair. intros H.
    apply result_of_bind_inv in H as Hinv. destruct Hinv as [rl [Hrl Hret]].
    destruct (IH _ Hrl) as [Hall Hlog].
    rewrite (log_of_bind_ok _ _ _ Hrl), Hlog.
    cbn in Hret. injection Hret as <-. split.
    + constructor; [exists d; split; [exact Hd | reflexivity] | exact Hall].
    + cbn. rewrite app_nil_r. reflexivity.
Qed.

Lemma scored_entry_of (query_vector : ndarray) (catalog : list CatalogItem)
      (results_list : list Main.Match) (item : CatalogItem) :
  Forall2 (fun item r => exists d, cosine query_vector (vector item) = Ok d
                                   /\ r = Main.entry_of item d)
          catalog results_list ->
  In item catalog ->
  exists d, cosine query_vector (vector item) = Ok d
            /\ In (Main.entry_of item d) results_list.
Proof.
  induction 1 as [|it e items entries [d [Hd He]] _ IH]; [intros []|].
  intros [<- | Hin].
  - exists d. split; [exact Hd|]. left. exact He.
  - destruct (IH Hin) as [d' [Hd' Hin']]. exists d'. split; [exact Hd'|].
    right. exact Hin'.
Qed.

Lemma scored_without_nan (query_vector : ndarray) (catalog : list CatalogItem)
      (results_list : list Main.Match) :
  Forall2 (fun item r => exists d, cosine query_vector (vector item) = Ok d
                                   /\ r = Main.entry_of item d)
          catalog results_list ->
  (forall item, In item catalog -> cosine query_vector (vector item) <> Ok NaN) ->
  Forall (fun m => is_nan (Main.similarity m) = false) results_list.
Proof.
  induction 1 as [|it e items entries [d [Hd He]] _ IH]; intros Hnum.
  - constructor.
  - constructor.
    + subst e. destruct d as [x|]; [reflexivity|].
      exfalso. exact (Hnum it (or_introl eq_refl) Hd).
    + apply IH. intros item Hin. apply Hnum. right. exact Hin.
Qed.

(** The ways [search_ring] can come back with a response. *)
Lemma search_ring_inv (catalog : list CatalogItem) (file : list Byte.byte)
      (resp : Main.search_response) :
  result_of (Main.search_ring catalog file) = Ok resp ->
  (catalog = [] /\ resp = Main.SearchError "Catalog is empty. Run indexing script.")
  \/ (catalog <> []
      /\ exists results,
           yolo_model (cv2_imdecode file) (Some 0.15%Q) = Ok results
           /\ ((Main.person_detected (boxes results) = true
                /\ resp = Main.SearchError
                            "Invalid Image: Person detected. Please photograph only the ring.")
               \/ (Main.person_detected (boxes results) = false
                   /\ exists query_vector results_list best rest,
                        result_of (Main.get_combined_embedding (cv2_imdecode file))
                        = Ok query_vector
                        /\ result_of (Main.score_catalog query_vector catalog)
                           = Ok results_list
                        /\ firstn 10 (Main.sorted_desc results_list) = best :: rest
                        /\ resp
                           = if pyfloat_lt (Main.similarity best) 38.0%Q
                             then Main.SearchError
                                    "No matching ring detected. Try a closer, centered photo."
                             else Main.SearchResults (best :: rest)))).
Proof.
  destruct catalog as [|item0 items].
  - rewrite search_ring_empty, result_of_pair. intros [= <-]. left.
    split; reflexivity.
  - intros H. right. split; [discriminate|].
    assert (Hne : item0 :: items <> []) by discriminate.
    destruct (yolo_model (cv2_imdecode file) (Some 0.15%Q)) as [results | e] eqn:Hy.
    2: { unfold Main.search_ring in H. cbn [length Nat.eqb] in H.
         rewrite !bind_call_ok in H. cbv beta in H. rewrite Hy in H.
         discriminate. }
    exists results. split; [reflexivity|].
    rewrite (search_ring_detects _ _ _ Hne Hy) in H.
    rewrite !bind_call_ok, !result_of_pair in H.
    destruct (Main.person_detected (boxes results)).
    + left. split; [reflexivity|]. cbn in H. injection H as <-. reflexivity.
    + right. split; [reflexivity|].
      apply result_of_bind_inv in H as [q [Hq H]].
      apply result_of_bind_inv in H as [l [Hl H]].
      apply result_of_bind_inv in H as [best [Hb H]].
      exists q, l, best.
      destruct (firstn 10 (Main.sorted_desc l)) as [|b rest] eqn:Hf;
        [discriminate|].
      cbn in Hb. injection Hb as ->. exists rest.
      split; [exact Hq|]. split; [exact Hl|]. split; [reflexivity|].
      destruct (pyfloat_lt (Main.similarity best) 38.0%Q); cbn in H;
        injection H as <-; reflexivity.
Qed.

End SearchInversion.

(** The float32 step shows in the first decimal: for a distance of
    16726885/2^25 the code answers 50.2, where exact arithmetic on [1 - d]
    would round to 50.1. *)
Lemma score_rounds_in_float32 (item : CatalogItem) :
  Main.similarity (Main.entry_of item (16726885 # 33554432)) = Num 50.2
  /\ round1 ((1 - (16726885 # 33554432)) * 100) = 50.1%Q.
Proof. split; vm_compute; reflexivity. Qed.

(** A catalog vector of zeros scores NaN; NaN is not below 38.0, and the
    list is returned with the NaN entry where the sort left it. *)
Lemma nan_score_passes_the_quality_gate :
  @Main.search_ring Demo.ring_runtime
     [mk_item "z.png" (Demo.vec 0 0); Demo.turned_item "r04.png" 1140 765]
     Demo.upload
  = ([FileRead; Imdecode; Yolo (Some 0.15%Q); Yolo None; ClipFeatures; ClipFeatures;
      Cosine "z.png"; Cosine "r04.png"],
     Ok (Main.SearchResults
           [Main.mk_match "z.png" NaN
                          "http://192.168.1.106:8004/static_images/z.png";
            Main.mk_match "r04.png" (Num 100.0)
                          "http://192.168.1.106:8004/static_images/r04.png"])).
Proof. vm_compute. reflexivity. Qed.

(** X2: whenever [/search] answers with a result list, the list is not empty,
    holds min(10, catalog size) entries, and its first entry is not below
    38.0 (a NaN similarity passes the gate). When SciPy returned a number
    for every catalog vector, the list is ranked by descending similarity and
    its first entry is a number of at least 38.0. *)
Theorem search_results_are_ranked_and_bounded {R : Runtime}
        (catalog : list CatalogItem) (file : list Byte.byte) (top_10 : list Main.Match) :
  result_of (Main.search_ring catalog file) = Ok (Main.SearchResults top_10) ->
  length top_10 = Nat.min 10 (length catalog)
  /\ (1 <= length top_10 <= 10)%nat
  /\ (exists best rest,
         top_10 = best :: rest /\ pyfloat_lt (Main.similarity best) 38.0%Q = false)
  /\ ((forall query_vector item,
          result_of (Main.get_combined_embedding (cv2_imdecode file)) = Ok query_vector ->
          In item catalog -> cosine query_vector (vector item) <> Ok NaN) ->
      StronglySorted Main.not_below top_10
      /\ exists best rest s,
           top_10 = best :: rest /\ Main.similarity best = Num s /\ (38.0 <= s)%Q).
Proof.
  intros H. apply search_ring_inv in H as [[_ H] | [Hne [results [_ H]]]];
    [discriminate|].
  destruct H as [[_ H] | [_ [q [l [best [rest [Hq [Hl [Hf H]]]]]]]]];
    [discriminate|].
  destruct (pyfloat_lt (Main.similarity best) 38.0%Q) eqn:Hlt; [discriminate|].
  injection H as ->.
  destruct (score_catalog_inv _ _ _ Hl) as [Hall _].
  assert (Hlen : length (best :: rest) = Nat.min 10 (length catalog)).
  { rewrite <- Hf, length_firstn, (Permutation_length (sorted_desc_perm l)).
    rewrite (Forall2_length Hall). reflexivity. }
  split; [exact Hlen|]. split.
  { split; [simpl; lia | rewrite Hlen; apply Nat.le_min_l]. }
  split; [exists best, rest; split; [reflexivity | exact Hlt]|].
  intros Hnum.
  assert (Hnumbers : Forall (fun m => is_nan (Main.similarity m) = false) l)
    by (apply (scored_without_nan _ _ _ Hall); intros item; apply Hnum; exact Hq).
  split.
  - rewrite <- Hf. apply sorted_firstn, sorted_desc_sorted, Hnumbers.
  - destruct (Main.similarity best) as [s|] eqn:Hs.
    + exists best, rest, s. split; [reflexivity|]. split; [exact Hs|].
      apply float_lt_false. exact Hlt.
    + exfalso. rewrite Forall_forall in Hnumbers.
      assert (Hin : In best l).
      { apply (Permutation_in _ (sorted_desc_perm l)), (in_firstn 10).
        rewrite Hf. left. reflexivity. }
      specialize (Hnumbers _ Hin). rewrite Hs in Hnumbers. discriminate.
Qed.

Lemma search_results_are_ranked_and_bounded_witness :
  exists top_10 : list Main.Match,
    result_of (@Main.search_ring Demo.ring_runtime Demo.catalog12 Demo.upload)
    = Ok (Main.SearchResults top_10)
    /\ length top_10 = Nat.min 10 (length Demo.catalog12)
    /\ (1 <= length top_10 <= 10)%nat
    /\ (exists best rest,
           top_10 = best :: rest /\ pyfloat_lt (Main.similarity best) 38.0%Q = false).
Proof.
  assert (Hrun : exists top_10,
             result_of (@Main.search_ring Demo.ring_runtime Demo.catalog12 Demo.upload)
             = Ok (Main.SearchResults top_10)).
  { eexists. vm_compute. reflexivity. }
  destruct Hrun as [top_10 Hrun]. exists top_10. split; [exact Hrun|].
  destruct (@search_results_are_ranked_and_bounded Demo.ring_runtime Demo.catalog12
              Demo.upload top_10 Hrun) as [Hlen [Hb [Hhead _]]].
  split; [exact Hlen|]. split; [exact Hb | exact Hhead].
Defined.



(** X4: [/search] answers "Catalog is empty" exactly when the loaded catalog
    is empty. *)
Theorem catalog_empty_error_iff {R : Runtime}
        (catalog : list CatalogItem) (file : list Byte.byte) :
  result_of (Main.search_ring catalog file)
  = Ok (Main.SearchError "Catalog is empty. Run indexing script.")
  <-> catalog = [].
Proof.
  split.
  - intros H. apply search_ring_inv in H as [[Hc _] | [_ [results [_ H]]]];
      [exact Hc|].
    destruct H as [[_ H] | [_ [q [l [best [rest [_ [_ [_ H]]]]]]]]];
      [discriminate|].
    destruct (pyfloat_lt (Main.similarity best) 38.0%Q); discriminate.
  - intros ->. reflexivity.
Qed.

(** X5: [/search] answers "Person detected" exactly when a catalog is loaded
    and the detector, run at confidence 0.15 on the decoded upload, reports a
    detection of class 0 whose confidence is strictly above the float32
    nearest to 0.40, which is how NumPy compares a float32 confidence with
    0.40. *)
Theorem person_error_iff {R : Runtime}
        (catalog : list CatalogItem) (file : list Byte.byte) :
  result_of (Main.search_ring catalog file)
  = Ok (Main.SearchError
          "Invalid Image: Person detected. Please photograph only the ring.")
  <-> catalog <> []
      /\ exists results,
           yolo_model (cv2_imdecode file) (Some 0.15%Q) = Ok results
           /\ exists b, In b (boxes results)
                        /\ Py.int (cls b) = 0%Z
                        /\ (float32_round 0.40 < conf b)%Q.
Proof.
  change (result_of (Main.search_ring catalog file)
          = Ok (Main.SearchError
                  "Invalid Image: Person detected. Please photograph only the ring.")
          <-> catalog <> []
              /\ exists results,
                   yolo_model (cv2_imdecode file) (Some 0.15%Q) = Ok results
                   /\ Main.person_above_threshold results).
  split.
  - intros H. apply search_ring_inv in H as [[_ H] | [Hne [results [Hy H]]]];
      [discriminate|].
    split; [exact Hne|]. exists results. split; [exact Hy|].
    destruct H as [[Hp _] | [_ [q [l [best [rest [_ [_ [_ H]]]]]]]]].
    + apply person_detected_true. exact Hp.
    + destruct (pyfloat_lt (Main.similarity best) 38.0%Q); discriminate.
  - intros [Hne [results [Hy Hp]]].
    apply person_detected_true in Hp.
    rewrite (search_ring_detects _ _ _ Hne Hy), Hp. reflexivity.
Qed.

(** X6: [/search] answers "No matching ring" only for a request with a
    catalog loaded and no person reported, after the query's embedding was
    computed and SciPy answered for every catalog item; when none of those
    answers is NaN, no item reached a similarity of 38.0. *)
Theorem no_match_only_after_scoring_everything {R : Runtime}
        (catalog : list CatalogItem) (file : list Byte.byte) :
  result_of (Main.search_ring catalog file)
  = Ok (Main.SearchError "No matching ring detected. Try a closer, centered photo.") ->
  catalog <> []
  /\ exists results query_vector,
       yolo_model (cv2_imdecode file) (Some 0.15%Q) = Ok results
       /\ ~ Main.person_above_threshold results
       /\ result_of (Main.get_combined_embedding (cv2_imdecode file)) = Ok query_vector
       /\ (forall item, In item catalog ->
             exists d, cosine query_vector (vector item) = Ok d)
       /\ ((forall item, In item catalog ->
              cosine query_vector (vector item) <> Ok NaN) ->
           forall item, In item catalog ->
             exists x : Q,
               cosine query_vector (vector item) = Ok (Num x)
               /\ (round1 (float32_round (1 - x) * 100) < 38.0)%Q).
Proof.
  intros H. apply search_ring_inv in H as [[_ H] | [Hne [results [Hy H]]]];
    [discriminate|].
  split; [exact Hne|].
  destruct H as [[_ H] | [Hp [q [l [best [rest [Hq [Hl [Hf H]]]]]]]]];
    [discriminate|].
  destruct (pyfloat_lt (Main.similarity best) 38.0%Q) eqn:Hlt; [|discriminate].
  exists results, q. split; [exact Hy|]. split.
  { intros Hper. apply person_detected_true in Hper. congruence. }
  split; [exact Hq|].
  destruct (score_catalog_inv _ _ _ Hl) as [Hall _].
  split.
  { intros item Hin. destruct (scored_entry_of _ _ _ _ Hall Hin) as [d [Hd _]].
    exists d. exact Hd. }
  intros Hnum item Hin.
  assert (Hnumbers : Forall (fun m => is_nan (Main.similarity m) = false) l)
    by (apply (scored_without_nan _ _ _ Hall); exact Hnum).
  destruct (Main.similarity best) as [b|] eqn:Hb; [|discriminate].
  cbn in Hlt. apply float_lt_true in Hlt.
  destruct (scored_entry_of _ _ _ _ Hall Hin) as [d [Hd He]].
  destruct d as [x|]; [|exfalso; exact (Hnum item Hin Hd)].
  exists x. split; [exact Hd|].
  eapply Qle_lt_trans; [|exact Hlt].
  apply (not_below_numbers best (Main.entry_of item x) b _ Hb (entry_similarity item x)).
  apply (sorted_head_is_best best rest 9 (Main.sorted_desc l) b).
  - apply sorted_desc_sorted, Hnumbers.
  - exact Hf.
  - exact Hb.
  - apply (Permutation_in _ (Permutation_sym (sorted_desc_perm l))). exact He.
Qed.

Lemma no_match_only_after_scoring_everything_witness :
  Demo.faint_catalog <> []
  /\ exists results query_vector,
       @yolo_model Demo.ring_runtime (@cv2_imdecode Demo.ring_runtime Demo.upload)
                   (Some 0.15%Q)
       = Ok results
       /\ ~ Main.person_above_threshold results
       /\ result_of (@Main.get_combined_embedding Demo.ring_runtime
                       (@cv2_imdecode Demo.ring_runtime Demo.upload))
          = Ok query_vector
       /\ (forall item, In item Demo.faint_catalog ->
             exists d, @cosine Demo.ring_runtime query_vector (vector item) = Ok d)
       /\ ((forall item, In item Demo.faint_catalog ->
              @cosine Demo.ring_runtime query_vector (vector item) <> Ok NaN) ->
           forall item, In item Demo.faint_catalog ->
             exists x : Q,
               @cosine Demo.ring_runtime query_vector (vector item) = Ok (Num x)
               /\ (round1 (float32_round (1 - x) * 100) < 38.0)%Q).
Proof.
  apply (@no_match_only_after_scoring_everything Demo.ring_runtime
           Demo.faint_catalog Demo.upload).
  vm_compute. reflexivity.
Defined.

(** X7: an upload that does not decode never gets a result list. When a
    catalog is loaded and no person is reported, the request ends in an
    exception raised inside [get_combined_embedding] right after its detector
    call ([AttributeError] from [None.copy()] when the detector returns), with
    no CLIP call and no scoring. *)
Theorem undecodable_upload_never_gets_results {R : Runtime}
        (catalog : list CatalogItem) (file : list Byte.byte) :
  cv2_imdecode file = None ->
  (forall top_10,
      result_of (Main.search_ring catalog file) <> Ok (Main.SearchResults top_10))
  /\ (forall results,
         catalog <> [] ->
         yolo_model None (Some 0.15%Q) = Ok results ->
         ~ Main.person_above_threshold results ->
         exists e,
           Main.search_ring catalog file
           = ([FileRead; Imdecode; Yolo (Some 0.15%Q); Yolo None], Raise e)
           /\ (forall r, yolo_model None None = Ok r -> e = AttributeError)).
Proof.
  intros Hdec. split.
  - intros top_10 H.
    apply search_ring_inv in H as [[_ H] | [_ [results [_ H]]]]; [discriminate|].
    destruct H as [[_ H] | [_ [q [l [best [rest [Hq _]]]]]]]; [discriminate|].
    rewrite Hdec in Hq. destruct (main_embedding_inv _ _ Hq) as [_ [_ [img [r [Hi _]]]]].
    discriminate.
  - intros results Hne Hy Hp. rewrite <- Hdec in Hy.
    rewrite (search_ring_detects _ _ _ Hne Hy), (person_detected_false _ Hp), Hdec.
    destruct embedding_of_none as [[e [He Hattr]] _].
    exists e. split; [|exact Hattr].
    rewrite He, !bind_call_ok. reflexivity.
Qed.

Lemma undecodable_upload_never_gets_results_witness :
  (forall top_10,
      result_of (@Main.search_ring Demo.plain_runtime Demo.catalog12 [])
      <> Ok (Main.SearchResults top_10))
  /\ (forall results,
         Demo.catalog12 <> [] ->
         @yolo_model Demo.plain_runtime None (Some 0.15%Q) = Ok results ->
         ~ Main.person_above_threshold results ->
         exists e,
           @Main.search_ring Demo.plain_runtime Demo.catalog12 []
           = ([FileRead; Imdecode; Yolo (Some 0.15%Q); Yolo None], Raise e)
           /\ (forall r, @yolo_model Demo.plain_runtime None None = Ok r ->
                         e = AttributeError)).
Proof.
  apply (@undecodable_upload_never_gets_results Demo.plain_runtime Demo.catalog12 []).
  reflexivity.
Defined.

(** ** The stone view at its extremes *)

Lemma stencil_row_all_zero (row : list pixel) (m : list Z) :
  length row = length m ->
  Forall (fun v => v = 0%Z) m ->
  zip3_with and_under_mask row row m = map (fun _ => black) row.
Proof.
  revert m. induction row as [|p row IH]; intros [|v m]; simpl; try discriminate.
  - reflexivity.
  - intros [= Hlen] Hall. inversion Hall as [|? ? Hv Hm]; subst.
    unfold and_under_mask at 1. simpl. f_equal. apply IH; assumption.
Qed.

Lemma stencil_row_none_zero (row : list pixel) (m : list Z) :
  length row = length m ->
  Forall (fun v => v <> 0%Z) m ->
  zip3_with and_under_mask row row m = row.
Proof.
  revert m. induction row as [|p row IH]; intros [|v m]; simpl; try discriminate.
  - reflexivity.
  - intros [= Hlen] Hall. inversion Hall as [|? ? Hv Hm]; subst.
    unfold and_under_mask at 1. apply Z.eqb_neq in Hv. rewrite Hv, and_pixel_diag.
    f_equal. apply IH; assumption.
Qed.

Lemma stencil_all_zero (img : image) (mask_uint8 : plane) :
  same_shape img mask_uint8 = true ->
  Forall (Forall (fun v => v = 0%Z)) mask_uint8 ->
  zip3_with (zip3_with and_under_mask) img img mask_uint8
  = map (map (fun _ => black)) img.
Proof.
  revert mask_uint8. induction img as [|row img IH]; intros [|m mask_uint8];
    simpl; try discriminate.
  - reflexivity.
  - intros H Hall. apply andb_true_iff in H as [Hr Hs]. apply Nat.eqb_eq in Hr.
    inversion Hall as [|? ? Hm Hrest]; subst.
    rewrite (stencil_row_all_zero _ _ Hr Hm). f_equal. apply IH; assumption.
Qed.

Lemma stencil_none_zero (img : image) (mask_uint8 : plane) :
  same_shape img mask_uint8 = true ->
  Forall (Forall (fun v => v <> 0%Z)) mask_uint8 ->
  zip3_with (zip3_with and_under_mask) img img mask_uint8 = img.
Proof.
  revert mask_uint8. induction img as [|row img IH]; intros [|m mask_uint8];
    simpl; try discriminate.
  - reflexivity.
  - intros H Hall. apply andb_true_iff in H as [Hr Hs]. apply Nat.eqb_eq in Hr.
    inversion Hall as [|? ? Hm Hrest]; subst.
    rewrite (stencil_row_none_zero _ _ Hr Hm). f_equal. apply IH; assumption.
Qed.

(** X8: with a first mask whose scaled bytes are all zero the stone view is
    an entirely black image of the input's size; with a first mask whose
    scaled bytes are all non-zero it is the input image itself. *)
Theorem stone_view_extremes {R : Runtime}
        (img : image) (results : Results) (mask : fplane) (others : list fplane) :
  masks results = Some (mask :: others) ->
  same_shape img (cv2_resize mask (width img, height img)) = true ->
  (Forall (Forall (fun v => v = 0%Z))
          (scale_to_uint8 (cv2_resize mask (width img, height img))) ->
   Main.stone_view img results = ret (map (map (fun _ => black)) img)
   /\ IndexCatalog.stone_view img results = ret (map (map (fun _ => black)) img))
  /\ (Forall (Forall (fun v => v <> 0%Z))
             (scale_to_uint8 (cv2_resize mask (width img, height img))) ->
      Main.stone_view img results = ret img
      /\ IndexCatalog.stone_view img results = ret img).
Proof.
  intros Hm Hshape.
  assert (Hshape8 : same_shape img
                      (scale_to_uint8 (cv2_resize mask (width img, height img))) = true).
  { unfold scale_to_uint8. rewrite same_shape_map. exact Hshape. }
  assert (Hv : Main.stone_view img results
               = ret (zip3_with (zip3_with and_under_mask) img img
                        (scale_to_uint8 (cv2_resize mask (width img, height img))))).
  { rewrite (stone_view_masked _ _ _ _ Hm), (bitwise_and_self _ _ Hshape8).
    reflexivity. }
  change (IndexCatalog.stone_view img results) with (Main.stone_view img results).
  rewrite Hv. split; intros Hall.
  - rewrite (stencil_all_zero _ _ Hshape8 Hall). split; reflexivity.
  - rewrite (stencil_none_zero _ _ Hshape8 Hall). split; reflexivity.
Qed.

Lemma stone_view_extremes_witness :
  (Forall (Forall (fun v => v = 0%Z))
          (scale_to_uint8 (resize_linear [[1; 1]]%Q (4, 1)%nat)) ->
   @Main.stone_view Demo.ring_runtime Demo.ring_img (mk_results (Some [[[1; 1]]%Q]) [])
   = ret (map (map (fun _ => black)) Demo.ring_img)
   /\ @IndexCatalog.stone_view Demo.ring_runtime Demo.ring_img
        (mk_results (Some [[[1; 1]]%Q]) [])
      = ret (map (map (fun _ => black)) Demo.ring_img))
  /\ (Forall (Forall (fun v => v <> 0%Z))
             (scale_to_uint8 (resize_linear [[1; 1]]%Q (4, 1)%nat)) ->
      @Main.stone_view Demo.ring_runtime Demo.ring_img (mk_results (Some [[[1; 1]]%Q]) [])
      = ret Demo.ring_img
      /\ @IndexCatalog.stone_view Demo.ring_runtime Demo.ring_img
           (mk_results (Some [[[1; 1]]%Q]) [])
         = ret Demo.ring_img).
Proof.
  apply (@stone_view_extremes Demo.ring_runtime Demo.ring_img
           (mk_results (Some [[[1; 1]]%Q]) []) [[1; 1]]%Q []); reflexivity.
Defined.

(** ** The mask export endpoint *)

Lemma nth_error_zip4_with {A B C D E} (f : A -> B -> C -> D -> E)
      (la : list A) (lb : list B) (lc : list C) (ld : list D) (i : nat)
      (a : A) (b : B) (c : C) (d : D) :
  nth_error la i = Some a -> nth_error lb i = Some b ->
  nth_error lc i = Some c -> nth_error ld i = Some d ->
  nth_error (zip4_with f la lb lc ld) i = Some (f a b c d).
Proof.
  revert la lb lc ld.
  induction i as [|i IH]; intros [|x la] [|y lb] [|z lc] [|w ld];
    simpl; try discriminate.
  - intros [= ->] [= ->] [= ->] [= ->]. reflexivity.
  - apply IH.
Qed.

Lemma at2_zip4_with {A B C D E} (f : A -> B -> C -> D -> E)
      (ma : list (list A)) (mb : list (list B)) (mc : list (list C))
      (md : list (list D)) (i j : nat) (a : A) (b : B) (c : C) (d : D) :
  at2 ma i j = Some a -> at2 mb i j = Some b ->
  at2 mc i j = Some c -> at2 md i j = Some d ->
  at2 (zip4_with (zip4_with f) ma mb mc md) i j = Some (f a b c d).
Proof.
  unfold at2.
  destruct (nth_error ma i) as [ra|] eqn:Ea; [|discriminate].
  destruct (nth_error mb i) as [rb|] eqn:Eb; [|discriminate].
  destruct (nth_error mc i) as [rc|] eqn:Ec; [|discriminate].
  destruct (nth_error md i) as [rd|] eqn:Ed; [|discriminate].
  intros Ha Hb Hc Hd.
  rewrite (nth_error_zip4_with (zip4_with f) _ _ _ _ _ _ _ _ _ Ea Eb Ec Ed).
  apply nth_error_zip4_with; assumption.
Qed.

Lemma same_shape_sym {A B} (a : list (list A)) (b : list (list B)) :
  same_shape a b = same_shape b a.
Proof.
  revert b. induction a as [|ra a IH]; intros [|rb b]; simpl; try reflexivity.
  rewrite IH, Nat.eqb_sym. reflexivity.
Qed.

Lemma same_shape_trans {A B C} (a : list (list A)) (b : list (list B))
      (c : list (list C)) :
  same_shape a b = true -> same_shape b c = true -> same_shape a c = true.
Proof.
  revert b c. induction a as [|ra a IH]; intros [|rb b] [|rc c]; simpl;
    try discriminate; try reflexivity.
  intros H1 H2. apply andb_true_iff in H1 as [L1 S1].
  apply andb_true_iff in H2 as [L2 S2].
  apply Nat.eqb_eq in L1, L2. apply andb_true_iff. split.
  - apply Nat.eqb_eq. congruence.
  - eapply IH; eassumption.
Qed.

Section MaskExport.
Context {R : Runtime}.
Variable encode_bgra : string -> image4 -> list Byte.byte.


End MaskExport.


(** X10: when the file is read, the detector returns at least one mask and
    the grey conversion keeps the image size, [/get_mask] streams a PNG of a
    four-channel image: the stencil applied is the stone view of the
    embedding procedure, the three colour channels of every pixel are the grey
    value of that stone view, and the alpha channel is the mask scaled to
    8 bits. *)
Theorem get_mask_exports_grey_stone_with_alpha {R : Runtime}
        (encode_bgra : string -> image4 -> list Byte.byte) (image_name : string)
        (img : image) (results : Results) (mask : fplane) (others : list fplane) :
  cv2_imread (os_path_join Main.STATIC_IMG_PATH image_name) = Some img ->
  yolo_model (Some img) (Some 0.15%Q) = Ok results ->
  masks results = Some (mask :: others) ->
  same_shape img (cv2_resize mask (width img, height img)) = true ->
  (forall x : image, same_shape x (cv2_BGR2GRAY x) = true) ->
  exists (stone_only : image) (bgra : image4),
    Main.stone_view img results = ret stone_only
    /\ Main.get_mask encode_bgra image_name
       = ([Imread (os_path_join Main.STATIC_IMG_PATH image_name);
           Yolo (Some 0.15%Q); Imencode],
          Ok (Main.StreamingResponse (encode_bgra ".png"%string bgra) "image/png"))
    /\ same_shape img bgra = true
    /\ forall i j g a,
         at2 (cv2_BGR2GRAY stone_only) i j = Some g ->
         at2 (scale_to_uint8 (cv2_resize mask (width img, height img))) i j = Some a ->
         at2 bgra i j = Some (g, g, g, a).
Proof.
  intros Hr Hy Hm Hshape Hgray.
  set (mask8 := scale_to_uint8 (cv2_resize mask (width img, height img))).
  assert (Hshape8 : same_shape img mask8 = true).
  { unfold mask8, scale_to_uint8. rewrite same_shape_map. exact Hshape. }
  set (stone := zip3_with (zip3_with and_under_mask) img img mask8).
  assert (Hstone : same_shape img stone = true)
    by (apply same_shape_zip3_with; exact Hshape8).
  set (gray := cv2_BGR2GRAY stone).
  assert (Hsg : same_shape stone gray = true) by apply Hgray.
  assert (Hig : same_shape img gray = true)
    by (eapply same_shape_trans; eassumption).
  assert (Hgm : same_shape gray mask8 = true).
  { eapply same_shape_trans; [|exact Hshape8]. rewrite same_shape_sym. exact Hig. }
  set (bgra := zip4_with (zip4_with (fun x y z w : Z => (x, y, z, w)))
                         gray gray gray mask8).
  exists stone, bgra. split.
  { rewrite (stone_view_masked _ _ _ _ Hm). fold mask8.
    rewrite (bitwise_and_self _ _ Hshape8). reflexivity. }
  split.
  { unfold Main.get_mask. rewrite Hr, bind_call_ok. cbv beta zeta iota.
    rewrite Hy, bind_call_ok. cbv beta. rewrite Hm. cbn [item0].
    rewrite bind_lift_ok. fold mask8.
    rewrite (bitwise_and_self _ _ Hshape8), bind_lift_ok. fold stone. fold gray.
    unfold merge4. rewrite same_shape_refl, Hgm. cbn [andb].
    rewrite bind_lift_ok, bind_call_ok. reflexivity. }
  split.
  { eapply same_shape_trans; [exact Hig|]. unfold bgra. clear - Hgm.
    revert Hgm. generalize mask8. induction gray as [|r g IH]; intros [|m ms];
      simpl; try discriminate; [reflexivity|].
    intros H. apply andb_true_iff in H as [L S]. apply Nat.eqb_eq in L.
    apply andb_true_iff. split; [|apply IH; exact S].
    apply Nat.eqb_eq. clear - L. revert m L.
    induction r as [|x r IHr]; intros [|y m]; simpl; try discriminate;
      [reflexivity|].
    intros [= L]. f_equal. apply IHr. exact L. }
  intros i j g a Hg Ha.
  exact (at2_zip4_with (fun x y z w : Z => (x, y, z, w)) gray gray gray mask8
                       i j g g g a Hg Hg Hg Ha).
Qed.

Lemma get_mask_exports_grey_stone_with_alpha_witness :
  exists (stone_only : image) (bgra : image4),
    @Main.stone_view Demo.ring_runtime Demo.ring_img Demo.ring_results = ret stone_only
    /\ @Main.get_mask Demo.ring_runtime Demo.imencode_bgra "a.png"
       = ([Imread "Rings/ring/a.png"; Yolo (Some 0.15%Q); Imencode],
          Ok (Main.StreamingResponse (Demo.imencode_bgra ".png" bgra) "image/png"))
    /\ same_shape Demo.ring_img bgra = true
    /\ forall i j g a,
         at2 (Demo.bgr2gray stone_only) i j = Some g ->
         at2 (scale_to_uint8 (resize_linear Demo.half_mask (4, 1)%nat)) i j = Some a ->
         at2 bgra i j = Some (g, g, g, a).
Proof.
  apply (@get_mask_exports_grey_stone_with_alpha Demo.ring_runtime Demo.imencode_bgra
           "a.png" Demo.ring_img Demo.ring_results Demo.half_mask []);
    try reflexivity.
  intros x. unfold cv2_BGR2GRAY. simpl. unfold Demo.bgr2gray.
  rewrite same_shape_map. apply same_shape_refl.
Defined.

(** ** Stone removal: the other answers *)




(** X12: [/remove_stone] answers with a JSON error exactly when the file
    cannot be read, and the error is then "Image not found"; for a file that
    is read it streams a PNG or ends in an exception. *)
Theorem remove_stone_json_error_iff {R : Runtime} (image_name msg : string) :
  result_of (Main.remove_stone image_name) = Ok (Main.JsonError msg)
  <-> cv2_imread (os_path_join Main.STATIC_IMG_PATH image_name) = None
      /\ msg = "Image not found"%string.
Proof.
  unfold Main.remove_stone. rewrite bind_call_ok. cbv beta zeta.
  rewrite result_of_pair.
  destruct (cv2_imread (os_path_join Main.STATIC_IMG_PATH image_name)) as [img|].
  - split; [|intros [H _]; discriminate].
    intros H. exfalso.
    destruct (yolo_model
                (Some (merge (cv2_BGR2GRAY img) (cv2_BGR2GRAY img) (cv2_BGR2GRAY img)))
                (Some 0.15%Q)) as [results | e];
      [rewrite bind_call_ok in H | rewrite bind_call_raise in H; discriminate].
    cbv beta in H. rewrite result_of_pair in H.
    destruct (masks results) as [data|].
    + apply result_of_bind_inv in H as [m [_ H]].
      rewrite bind_call_ok, result_of_pair in H. discriminate.
    + rewrite bind_call_ok, result_of_pair in H. discriminate.
  - cbn. split.
    + intros [= <-]. split; reflexivity.
    + intros [_ ->]. reflexivity.
Qed.

(** ** Indexing: order, reads and the save *)

Section IndexingRun.
Context {R : Runtime}.

Lemma index_embed_views_log (stone_rgb edges_3ch : image) :
  Forall (fun ev => ev = Yolo None \/ ev = ClipFeatures)
         (log_of (IndexCatalog.embed_views stone_rgb edges_3ch)).
Proof.
  unfold IndexCatalog.embed_views. rewrite bind_call_ok, log_of_pair. cbv beta.
  constructor; [right; reflexivity|].
  destruct (IndexCatalog.stone_features_of (clip_image_features stone_rgb)) as [fs | ?];
    [rewrite bind_lift_ok | constructor].
  rewrite bind_call_ok, log_of_pair. cbv beta.
  constructor; [right; reflexivity|].
  destruct (IndexCatalog.edge_features_of (clip_image_features edges_3ch)) as [fe | ?];
    [rewrite bind_lift_ok | constructor].
  destruct (cat_dim1 fs fe) as [c | ?]; constructor.
Qed.

(** The embedding procedure only ever calls the detector and CLIP. *)
Lemma index_embedding_log (cv2_img : option image) :
  Forall (fun ev => ev = Yolo None \/ ev = ClipFeatures)
         (log_of (IndexCatalog.get_combined_embedding cv2_img)).
Proof.
  unfold IndexCatalog.get_combined_embedding.
  destruct (yolo_model cv2_img None) as [results | e];
    [rewrite bind_call_ok, log_of_pair
    | rewrite bind_call_raise; repeat constructor].
  cbv beta. constructor; [left; reflexivity|].
  destruct cv2_img as [img|]; [rewrite bind_lift_ok | constructor].
  rewrite stone_view_same.
  destruct (stone_view_cases img results) as [[mask_img ->] | [e ->]];
    [rewrite bind_ret | constructor].
  apply index_embed_views_log.
Qed.

Lemma indexed_one_exact (img_name : string) (img : option image) :
  match img with
  | Some img =>
      try_except
        (vector <- IndexCatalog.get_combined_embedding (Some img) ;;
         ret [mk_item img_name vector])
        (fun _ => ret [])
  | None => ret []
  end
  = (match img with
     | Some img => log_of (IndexCatalog.get_combined_embedding (Some img))
     | None => []
     end,
     Ok (match img with
         | Some img =>
             match result_of (IndexCatalog.get_combined_embedding (Some img)) with
             | Ok v => [mk_item img_name v]
             | Raise _ => []
             end
         | None => []
         end)).
Proof.
  destruct img as [img|]; [|reflexivity].
  destruct (IndexCatalog.get_combined_embedding (Some img)) as [log [v | e]];
    cbn; rewrite app_nil_r; reflexivity.
Qed.

Lemma index_images_exact (images : list string) :
  IndexCatalog.index_images images
  = (flat_map
       (fun f =>
          Imread (os_path_join IndexCatalog.IMG_FOLDER f)
          :: match cv2_imread (os_path_join IndexCatalog.IMG_FOLDER f) with
             | Some img => log_of (IndexCatalog.get_combined_embedding (Some img))
             | None => []
             end)
       images,
     Ok (flat_map
           (fun f =>
              match cv2_imread (os_path_join IndexCatalog.IMG_FOLDER f) with
              | Some img =>
                  match result_of (IndexCatalog.get_combined_embedding (Some img)) with
                  | Ok v => [mk_item f v]
                  | Raise _ => []
                  end
              | None => []
              end)
           images)).
Proof.
  induction images as [|f rest IH]; [reflexivity|].
  cbn [IndexCatalog.index_images flat_map].
  rewrite bind_call_ok. cbv beta.
  rewrite indexed_one_exact, bind_pair_ok. cbv beta.
  rewrite IH, bind_pair_ok. cbn [ret log_of result_of fst snd].
  rewrite app_nil_r. reflexivity.
Qed.

Lemma run_indexing_exact :
  os_path_exists IndexCatalog.IMG_FOLDER = true ->
  IndexCatalog.run_indexing
  = (log_of (IndexCatalog.index_images
               (filter IndexCatalog.is_image_name (os_listdir IndexCatalog.IMG_FOLDER)))
       ++ [NpSave IndexCatalog.SAVE_PATH],
     match result_of (IndexCatalog.index_images
                        (filter IndexCatalog.is_image_name
                                (os_listdir IndexCatalog.IMG_FOLDER))) with
     | Ok catalog => Ok (Some catalog)
     | Raise e => Raise e
     end).
Proof.
  intros He. unfold IndexCatalog.run_indexing. rewrite He. cbn [negb].
  rewrite index_images_exact, bind_pair_ok. cbv beta.
  rewrite bind_call_ok. reflexivity.
Qed.

End IndexingRun.

(** X13: [run_indexing] never raises, whatever the models do. Without the
    image folder it returns at once and saves nothing; with the folder it
    saves exactly once, as its last step. *)
Theorem run_indexing_saves_iff_folder_exists {R : Runtime} :
  (os_path_exists IndexCatalog.IMG_FOLDER = false ->
   IndexCatalog.run_indexing = ([], Ok None))
  /\ (os_path_exists IndexCatalog.IMG_FOLDER = true ->
      exists log catalog,
        IndexCatalog.run_indexing
        = (log ++ [NpSave IndexCatalog.SAVE_PATH], Ok (Some catalog))
        /\ ~ In (NpSave IndexCatalog.SAVE_PATH) log).
Proof.
  split; intros He.
  - unfold IndexCatalog.run_indexing. rewrite He. reflexivity.
  - rewrite (run_indexing_exact He), index_images_exact.
    rewrite log_of_pair, result_of_pair.
    eexists. eexists. split; [reflexivity|].
    generalize (filter IndexCatalog.is_image_name (os_listdir IndexCatalog.IMG_FOLDER)).
    intros images. induction images as [|f rest IH]; [intros []|].
    cbn [flat_map]. intros [Hf | Hin]; [discriminate|].
    apply in_app_or in Hin as [Hin | Hin]; [|exact (IH Hin)].
    destruct (cv2_imread (os_path_join IndexCatalog.IMG_FOLDER f)) as [img|];
      [|destruct Hin].
    pose proof (index_embedding_log (Some img)) as Hlog.
    rewrite Forall_forall in Hlog. destruct (Hlog _ Hin); discriminate.
Qed.

(** X14: the saved catalog follows the folder listing: its names are, in
    listing order and with the same multiplicity, the image-named files that
    decode and embed; so it is never longer than the listing and has no
    duplicate name when the listing has none. *)
Theorem catalog_follows_listing_order {R : Runtime} :
  os_path_exists IndexCatalog.IMG_FOLDER = true ->
  exists catalog : list CatalogItem,
    result_of IndexCatalog.run_indexing = Ok (Some catalog)
    /\ map name catalog
       = filter
           (fun f =>
              match cv2_imread (os_path_join IndexCatalog.IMG_FOLDER f) with
              | Some img =>
                  match result_of (IndexCatalog.get_combined_embedding (Some img)) with
                  | Ok _ => true
                  | Raise _ => false
                  end
              | None => false
              end)
           (filter IndexCatalog.is_image_name (os_listdir IndexCatalog.IMG_FOLDER))
    /\ (length catalog <= length (os_listdir IndexCatalog.IMG_FOLDER))%nat
    /\ (NoDup (os_listdir IndexCatalog.IMG_FOLDER) -> NoDup (map name catalog)).
Proof.
  intros He. rewrite (run_indexing_exact He), index_images_exact.
  rewrite !result_of_pair. eexists. split; [reflexivity|].
  set (images := filter IndexCatalog.is_image_name (os_listdir IndexCatalog.IMG_FOLDER)).
  match goal with
  | |- map name ?c = filter ?ok images /\ _ =>
      assert (Hnames : map name c = filter ok images)
  end.
  { clearbody images. induction images as [|f rest IH]; [reflexivity|].
    cbn [flat_map filter]. rewrite map_app, IH.
    destruct (cv2_imread (os_path_join IndexCatalog.IMG_FOLDER f)) as [img|];
      [|reflexivity].
    destruct (result_of (IndexCatalog.get_combined_embedding (Some img)));
      reflexivity. }
  split; [exact Hnames|]. split.
  - rewrite <- (length_map name), Hnames.
    etransitivity; [apply filter_length_le|]. apply filter_length_le.
  - intros Hnd. rewrite Hnames. apply NoDup_filter, NoDup_filter, Hnd.
Qed.

Lemma catalog_follows_listing_order_witness :
  exists catalog : list CatalogItem,
    result_of (@IndexCatalog.run_indexing Demo.ring_runtime) = Ok (Some catalog)
    /\ map name catalog = ["a.png"; "B.JPEG"]%string.
Proof.
  destruct (@catalog_follows_listing_order Demo.ring_runtime)
    as [catalog [Hrun [Hnames _]]].
  - reflexivity.
  - exists catalog. split; [exact Hrun|]. rewrite Hnames. vm_compute. reflexivity.
Defined.

(** X15: with the folder present, [run_indexing] reads every image-named file
    of the listing exactly once, in listing order, and reads no other file. *)
Theorem run_indexing_reads_each_image_file_once {R : Runtime} :
  os_path_exists IndexCatalog.IMG_FOLDER = true ->
  filter (fun ev => match ev with Imread _ => true | _ => false end)
         (log_of IndexCatalog.run_indexing)
  = map (fun f => Imread (os_path_join IndexCatalog.IMG_FOLDER f))
        (filter IndexCatalog.is_image_name (os_listdir IndexCatalog.IMG_FOLDER)).
Proof.
  intros He. rewrite (run_indexing_exact He), index_images_exact.
  rewrite !log_of_pair, filter_app. cbn [filter]. rewrite app_nil_r.
  generalize (filter IndexCatalog.is_image_name (os_listdir IndexCatalog.IMG_FOLDER)).
  intros images. induction images as [|f rest IH]; [reflexivity|].
  cbn [flat_map map]. rewrite filter_app. cbn [filter]. rewrite IH.
  cbn [app]. f_equal.
  match goal with |- ?l ++ _ = _ => assert (Hnil : l = []) end.
  { destruct (cv2_imread (os_path_join IndexCatalog.IMG_FOLDER f)) as [img|];
      [|reflexivity].
    pose proof (index_embedding_log (Some img)) as Hlog.
    induction Hlog as [|ev log [-> | ->] _ IHlog]; [reflexivity | exact IHlog ..]. }
  rewrite Hnil. reflexivity.
Qed.

Lemma run_indexing_reads_each_image_file_once_witness :
  filter (fun ev => match ev with Imread _ => true | _ => false end)
         (log_of (@IndexCatalog.run_indexing Demo.ring_runtime))
  = map (fun f => Imread (os_path_join IndexCatalog.IMG_FOLDER f))
        (filter IndexCatalog.is_image_name
                (@os_listdir Demo.ring_runtime IndexCatalog.IMG_FOLDER)).
Proof.
  apply (@run_indexing_reads_each_image_file_once Demo.ring_runtime). reflexivity.
Defined.

(** ** Indexing, then searching *)

Lemma round1_of_hundred (x : Q) : (x == 100)%Q -> (100 <= round1 x)%Q.
Proof.
  intros Hx. destruct (round1_nearest_tenth x) as [[k Hk] Hnear].
  apply Qabs_Qle_condition in Hnear as [Hlow _].
  rewrite Hk in *. rewrite Hx in Hlow.
  unfold Qle, Qminus, Qplus, Qopp in *. cbn [Qnum Qden] in *. lia.
Qed.

Lemma float32_round_comp (x y : Q) :
  (x == y)%Q -> float32_round x = float32_round y.
Proof.
  intros H. unfold float32_round. rewrite (Qred_complete x y H). reflexivity.
Qed.

Lemma float32_round_one (d : Q) : (d == 0)%Q -> float32_round (1 - d) = 1%Q.
Proof.
  intros H. rewrite (float32_round_comp (1 - d) 1); [vm_compute; reflexivity|].
  rewrite H. reflexivity.
Qed.

(** X16: searching with an image that was indexed finds it again. If the
    upload decodes to the image of a catalogued file, no person is reported,
    SciPy returns a distance for every catalog vector and distance 0 for the
    file's own vector, then [/search] over the catalog that [run_indexing]
    saved passes the quality gate and its first entry has a similarity that
    is a number of at least 100. *)
Theorem indexed_image_is_found_again {R : Runtime}
        (file : list Byte.byte) (catalog : list CatalogItem) (item : CatalogItem)
        (results : Results) (dist : CatalogItem -> Q) :
  (forall rgb, documented_output (clip_image_features rgb)) ->
  result_of IndexCatalog.run_indexing = Ok (Some catalog) ->
  In item catalog ->
  cv2_imdecode file = cv2_imread (os_path_join IndexCatalog.IMG_FOLDER (name item)) ->
  yolo_model (cv2_imdecode file) (Some 0.15%Q) = Ok results ->
  ~ Main.person_above_threshold results ->
  Forall (fun it => cosine (vector item) (vector it) = Ok (Num (dist it))) catalog ->
  (dist item == 0)%Q ->
  exists best rest,
    result_of (Main.search_ring catalog file) = Ok (Main.SearchResults (best :: rest))
    /\ exists s : Q, Main.similarity best = Num s /\ (100 <= s)%Q.
Proof.
  intros Hclip Hrun Hin Hdec Hy Hp Hd Hself.
  assert (Hcat : result_of (IndexCatalog.index_images
                              (filter IndexCatalog.is_image_name
                                      (os_listdir IndexCatalog.IMG_FOLDER)))
                 = Ok catalog).
  { destruct (os_path_exists IndexCatalog.IMG_FOLDER) eqn:He.
    - rewrite (run_indexing_exact He), result_of_pair in Hrun.
      destruct (result_of (IndexCatalog.index_images _)); [|discriminate].
      injection Hrun as ->. reflexivity.
    - unfold IndexCatalog.run_indexing in Hrun. rewrite He in Hrun. discriminate. }
  destruct (index_images_records
              (filter IndexCatalog.is_image_name (os_listdir IndexCatalog.IMG_FOLDER)))
    as [catalog' [Hcat' Hrec]].
  rewrite Hcat in Hcat'. injection Hcat' as <-.
  apply Hrec in Hin as Hitem. destruct Hitem as [_ [img [Hread Hvec]]].
  rewrite Hread in Hdec.
  rewrite (get_combined_embedding_agree Hclip) in Hvec.
  assert (He : Main.get_combined_embedding (cv2_imdecode file)
               = (log_of (Main.get_combined_embedding (Some img)), Ok (vector item))).
  { rewrite Hdec, <- Hvec. apply M_eta. }
  assert (Hne : catalog <> []) by (intros ->; destruct Hin).
  set (scored := map (fun it => Main.entry_of it (dist it)) catalog).
  assert (Hsne : scored <> []).
  { unfold scored. destruct catalog; [contradiction | discriminate]. }
  assert (Hnum : Forall (fun m => is_nan (Main.similarity m) = false) scored)
    by apply scored_numbers.
  destruct (best_similarity_number _ Hsne Hnum) as [b Hb].
  assert (Hhundred : (100 <= b)%Q).
  { assert (Hscored : In (Main.entry_of item (dist item)) scored).
    { unfold scored. apply in_map_iff. exists item. split; [reflexivity | exact Hin]. }
    eapply Qle_trans;
      [|exact (best_similarity_is_greatest _ _ Hnum Hb _ _ Hscored
                 (entry_similarity item (dist item)))].
    apply round1_of_hundred. rewrite (float32_round_one _ Hself). reflexivity. }
  destruct (best_similarity_head _ _ Hb) as [best [rest [Hf Hbest]]].
  exists best, rest.
  rewrite (search_ring_scored _ _ _ _ _ _ _ Hne Hy Hp He Hd Hb), result_of_pair.
  assert (Hgate : float_lt b 38.0 = false).
  { apply float_lt_false. eapply Qle_trans; [|exact Hhundred].
    unfold Qle. simpl. lia. }
  rewrite Hgate. fold scored. rewrite Hf. split; [reflexivity|].
  exists b. split; [exact Hbest | exact Hhundred].
Qed.

Lemma indexed_image_is_found_again_witness :
  exists best rest,
    result_of (@Main.search_ring Demo.ring_runtime
                 [mk_item "a.png" Demo.ring_vector; mk_item "B.JPEG" Demo.ring_vector]
                 Demo.upload)
    = Ok (Main.SearchResults (best :: rest))
    /\ exists s : Q, Main.similarity best = Num s /\ (100 <= s)%Q.
Proof.
  apply (@indexed_image_is_found_again Demo.ring_runtime Demo.upload
           [mk_item "a.png" Demo.ring_vector; mk_item "B.JPEG" Demo.ring_vector]
           (mk_item "a.png" Demo.ring_vector) Demo.ring_results
           (Demo.distance_from Demo.ring_vector)).
  - intros rgb. exact I.
  - vm_compute. reflexivity.
  - left. reflexivity.
  - reflexivity.
  - reflexivity.
  - intros [bx [Hin [Hcls _]]]. simpl in Hin.
    destruct Hin as [<- | []]. vm_compute in Hcls. discriminate.
  - repeat constructor; vm_compute; reflexivity.
  - vm_compute. reflexivity.
Defined.

(** ** The file-name filter *)

Lemma lower_app (a b : string) : lower (a ++ b) = (lower a ++ lower b)%string.
Proof.
  induction a as [|c a IH]; simpl; [reflexivity|]. rewrite IH. reflexivity.
Qed.

Lemma lower_char_idempotent (c : ascii) : lower_char (lower_char c) = lower_char c.
Proof. destruct c as [[] [] [] [] [] [] [] []]; reflexivity. Qed.

Lemma lower_idempotent (s : string) : lower (lower s) = lower s.
Proof.
  induction s as [|c s IH]; simpl; [reflexivity|].
  rewrite lower_char_idempotent, IH. reflexivity.
Qed.

Lemma lower_length (s : string) : String.length (lower s) = String.length s.
Proof. induction s as [|c s IH]; simpl; [reflexivity|]. rewrite IH. reflexivity. Qed.

Lemma append_length (a b : string) :
  String.length (a ++ b) = (String.length a + String.length b)%nat.
Proof. induction a as [|c a IH]; simpl; [reflexivity|]. rewrite IH. reflexivity. Qed.

(** X17: the file filter of [run_indexing] looks only at the lower-cased
    name: a name whose ending is .png, .jpg or .jpeg in any mix of letter
    case is kept, the lower-cased form of a kept name is kept, and no name
    shorter than four characters is kept. *)
Theorem image_name_filter_ignores_case :
  (forall stem ext,
      In (lower ext) [".png"; ".jpg"; ".jpeg"]%string ->
      IndexCatalog.is_image_name (stem ++ ext) = true)
  /\ (forall f, IndexCatalog.is_image_name (lower f) = IndexCatalog.is_image_name f)
  /\ (forall f, IndexCatalog.is_image_name f = true -> (4 <= String.length f)%nat).
Proof.
  split; [|split].
  - intros stem ext Hext. apply is_image_name_spec.
    exists (lower stem), (lower ext). split; [exact Hext | apply lower_app].
  - intros f. unfold IndexCatalog.is_image_name. rewrite lower_idempotent. reflexivity.
  - intros f Hf. apply is_image_name_spec in Hf as [stem [ext [Hext Hl]]].
    rewrite <- (lower_length f), Hl, append_length.
    simpl in Hext. destruct Hext as [<- | [<- | [<- | []]]]; simpl; lia.
Qed.

(** ** A catalog record that cannot be scored *)

Lemma score_catalog_stops_at_failure {R : Runtime}
      (query_vector : ndarray) (before after : list CatalogItem) (bad : CatalogItem)
      (e : exn) (dist : CatalogItem -> pyfloat) :
  Forall (fun item => cosine query_vector (vector item) = Ok (dist item)) before ->
  cosine query_vector (vector bad) = Raise e ->
  Main.score_catalog query_vector (before ++ bad :: after)
  = (map (fun item => Cosine (name item)) before ++ [Cosine (name bad)], Raise e).
Proof.
  intros Hok Hbad. induction Hok as [|item rest Hd _ IH].
  - cbn [app map Main.score_catalog]. rewrite Hbad. reflexivity.
  - cbn [app map Main.score_catalog]. rewrite Hd, bind_call_ok. cbv beta.
    rewrite IH. reflexivity.
Qed.

(** X18: [/search] has no handler around scoring: if SciPy refuses one
    catalog vector (for instance one of another length), a request that got
    past the person gate ends in that exception, raised at the first such
    record, whatever the other records would have scored. *)
Theorem one_unscorable_record_fails_the_search {R : Runtime}
        (before after : list CatalogItem) (bad : CatalogItem) (e : exn)
        (file : list Byte.byte) (results : Results) (log_e : list event)
        (query_vector : ndarray) (dist : CatalogItem -> pyfloat) :
  yolo_model (cv2_imdecode file) (Some 0.15%Q) = Ok results ->
  ~ Main.person_above_threshold results ->
  Main.get_combined_embedding (cv2_imdecode file) = (log_e, Ok query_vector) ->
  Forall (fun item => cosine query_vector (vector item) = Ok (dist item)) before ->
  cosine query_vector (vector bad) = Raise e ->
  Main.search_ring (before ++ bad :: after) file
  = ([FileRead; Imdecode; Yolo (Some 0.15%Q)] ++ log_e
       ++ map (fun item => Cosine (name item)) before ++ [Cosine (name bad)],
     Raise e).
Proof.
  intros Hy Hp He Hok Hbad.
  assert (Hne : before ++ bad :: after <> []) by (destruct before; discriminate).
  rewrite (search_ring_detects _ _ _ Hne Hy), (person_detected_false _ Hp).
  rewrite He, (bind_pair_ok log_e query_vector). cbv beta.
  rewrite (score_catalog_stops_at_failure _ _ _ _ _ _ Hok Hbad).
  rewrite bind_raise, log_of_pair, result_of_pair, !bind_call_ok.
  reflexivity.
Qed.

Lemma one_unscorable_record_fails_the_search_witness :
  @Main.search_ring Demo.ring_runtime
    ([Demo.scaled_item "r04.png" 1]
       ++ mk_item "short.png" (mk_ndarray float32 [1; 2; 3]%Q)
       :: [Demo.scaled_item "r02.png" 2])
    Demo.upload
  = ([FileRead; Imdecode; Yolo (Some 0.15%Q)]
       ++ [Yolo None; ClipFeatures; ClipFeatures]
       ++ map (fun item => Cosine (name item)) [Demo.scaled_item "r04.png" 1]
       ++ [Cosine "short.png"],
     Raise ValueError).
Proof.
  apply (@one_unscorable_record_fails_the_search Demo.ring_runtime
           [Demo.scaled_item "r04.png" 1] [Demo.scaled_item "r02.png" 2]
           (mk_item "short.png" (mk_ndarray float32 [1; 2; 3]%Q)) ValueError
           Demo.upload Demo.ring_results [Yolo None; ClipFeatures; ClipFeatures]
           Demo.ring_vector
           (fun item => Num (Demo.distance_from Demo.ring_vector item))).
  - reflexivity.
  - intros [bx [Hin [Hcls _]]]. simpl in Hin.
    destruct Hin as [<- | []]. vm_compute in Hcls. discriminate.
  - vm_compute. reflexivity.
  - repeat constructor; vm_compute; reflexivity.
  - reflexivity.
Defined.
